(** * Retro Board: the client logic of [src/App.tsx], embedded in Rocq

    The development follows the source file top-down:
    - the data model ([Category], [Vote], [Comment], [RetroItem]);
    - the pure part of the component: the comparator and the sort of
      [fetchItems], [getItemsByCategory], [hasUserVoted];
    - the interaction handlers ([fetchItems], [addItem], [toggleVote],
      [addComment], [deleteItem], [deleteComment]) as programs of a small
      free monad with exceptions, run against an arbitrary environment that
      answers the backend requests, [confirm], [alert] and [console.error];
    - a list-based model of the external backend, used where a property
      depends on what the backend stores. *)

From Stdlib Require Import ZArith Ascii String List Sorting.Sorted.
From stdpp Require Import base decidable option list sorting strings pretty functions gmap.

Local Open Scope string_scope.
Local Open Scope list_scope.

(** ** JavaScript values used by the component *)

(** A JavaScript number as the comparator produces it: an integer or [NaN].
    Vote counts are array lengths and time values are integral numbers of
    milliseconds, so every finite number here is an integer; the sort only
    looks at the sign of a comparator result, and the sign of a rounded
    difference of two doubles is the sign of the exact difference. *)
Inductive Number : Type :=
| NaN
| Num (z : Z).

Definition Number_sub (x y : Number) : Number :=
  match x, y with
  | Num a, Num b => Num (a - b)%Z
  | _, _ => NaN
  end.

(** [x >= y] on numbers: false as soon as one side is [NaN]. *)
Definition Number_ge (x y : Number) : Prop :=
  match x, y with
  | Num a, Num b => (b <= a)%Z
  | _, _ => False
  end.

(** Characters are code units below 256.  The white space and line
    terminator code units of ECMAScript in that range are TAB, LF, VT, FF,
    CR, SP and NBSP; they are what [String.prototype.trim] strips. *)
Definition isWhiteSpace (c : ascii) : bool :=
  let n := nat_of_ascii c in
  ((9 <=? n) && (n <=? 13) || (n =? 32) || (n =? 160))%nat.

Fixpoint trimStart (s : string) : string :=
  match s with
  | EmptyString => EmptyString
  | String c s' => if isWhiteSpace c then trimStart s' else s
  end.

Definition trimEnd (s : string) : string :=
  String.rev (trimStart (String.rev s)).

Definition trim (s : string) : string := trimEnd (trimStart s).

(** Truthiness of a string: only the empty string is falsy. *)
Definition truthy (s : string) : bool :=
  match s with
  | EmptyString => false
  | String _ _ => true
  end.

(** ** Data model (the interfaces at the top of [App.tsx]) *)

Inductive Category : Type := good | bad | better.

Global Instance Category_eq_dec : EqDecision Category.
Proof. solve_decision. Defined.

(** [users?: { nickname: string }] *)
Record Users : Type := { nickname : string }.

Module Vote.
Record t : Type := {
  id : string;
  retro_item_id : string;
  user_id : string;
  users : option Users
}.
End Vote.

Module Comment.
Record t : Type := {
  id : string;
  retro_item_id : string;
  user_id : string;
  content : string;
  created_at : string;
  users : option Users
}.
End Comment.

Module RetroItem.
Record t : Type := {
  id : string;
  category : Category;
  content : string;
  created_by : string;
  created_at : string;
  votes : option (list Vote.t);
  comments : option (list Comment.t);
  users : option Users
}.

(** [{ ...data, votes: [], comments: [] }] *)
Definition with_empty_votes_and_comments (data : t) : t :=
  {| id := id data; category := category data; content := content data;
     created_by := created_by data; created_at := created_at data;
     votes := Some []; comments := Some []; users := users data |}.
End RetroItem.

(** The [user] of [useUser()]; only [user.id] is read. *)
Module User.
Record t : Type := { id : string }.
End User.

(** ** Sorting *)

Section Sort.
Context {A : Type}.
Variable comparefn : A -> A -> Number.

(** [SortCompare]: a comparator result that is [NaN] counts as [+0]. *)
Definition SortCompare (x y : A) : Z :=
  match comparefn x y with
  | NaN => 0%Z
  | Num v => v
  end.

(** [Array.prototype.sort] is a stable sort; it is modelled by the stable
    insertion sort: an element goes after the elements that the comparator
    puts strictly before it, and before everything else.  ECMAScript fixes
    the result only for a consistent comparator, and there every stable
    sort returns the same list (shown below for this one); for other
    comparators the order is left to the engine. *)
Fixpoint sort_insert (x : A) (l : list A) : list A :=
  match l with
  | [] => [x]
  | y :: l' =>
      if (0 <? SortCompare x y)%Z then y :: sort_insert x l' else x :: l
  end.

Fixpoint Array_sort (l : list A) : list A :=
  match l with
  | [] => []
  | x :: l' => sort_insert x (Array_sort l')
  end.
End Sort.

(** [a] occurs before [b] in [l] (at two different positions). *)
Definition precedes {A : Type} (a b : A) (l : list A) : Prop :=
  exists l1 l2 l3, l = l1 ++ a :: l2 ++ b :: l3.

(** ** The pure part of the component *)

Section Component.
(** [new Date(s).getTime()]: the time value of a date string, [NaN] when
    the string does not parse. *)
Variable Date_getTime : string -> Number.

(** [a.votes?.length || 0] *)
Definition voteCount (a : RetroItem.t) : Z :=
  match RetroItem.votes a with
  | Some vs => Z.of_nat (length vs)
  | None => 0%Z
  end.

Definition createdAt (a : RetroItem.t) : Number :=
  Date_getTime (RetroItem.created_at a).

(** The comparator passed to [sort] in [fetchItems]. *)
Definition compareItems (a b : RetroItem.t) : Number :=
  let aVotes := voteCount a in
  let bVotes := voteCount b in
  if negb (bVotes =? aVotes)%Z then Num (bVotes - aVotes)%Z
  else Number_sub (createdAt b) (createdAt a).

(** [(data || []).sort(...)] *)
Definition sortedData (data : option (list RetroItem.t)) : list RetroItem.t :=
  Array_sort compareItems (default [] data).

(** [items.filter((item) => item.category === category)] *)
Definition getItemsByCategory (items : list RetroItem.t) (category : Category)
  : list RetroItem.t :=
  filter (fun item => RetroItem.category item = category) items.

(** [user ? item.votes?.some((vote) => vote.user_id === user.id) : false];
    [None] is [undefined], the value of [item.votes?.some(...)] for an item
    without a [votes] field. *)
Definition hasUserVoted (user : option User.t) (item : RetroItem.t) : option bool :=
  match user with
  | Some u =>
      match RetroItem.votes item with
      | Some vs => Some (existsb (fun vote => bool_decide (Vote.user_id vote = User.id u)) vs)
      | None => None
      end
  | None => Some false
  end.
End Component.

(** ** Component state and effects *)

(** The state of [App]: the [useUser] hook and the five [useState] cells. *)
Record AppState : Type := {
  user : option User.t;
  isLoaded : bool;
  items : list RetroItem.t;
  loading : bool;
  newItemContent : Category -> string;
  showComments : gmap string bool;
  newComments : gmap string string
}.

(** The state setters the handlers call. *)
Inductive Setter : Type :=
| setItems (v : list RetroItem.t)
| setLoading (v : bool)
| setNewItemContent (v : Category -> string)
| setNewComments (v : gmap string string).

Definition apply_setter (u : Setter) (st : AppState) : AppState :=
  match u with
  | setItems v =>
      {| user := user st; isLoaded := isLoaded st; items := v;
         loading := loading st; newItemContent := newItemContent st;
         showComments := showComments st; newComments := newComments st |}
  | setLoading v =>
      {| user := user st; isLoaded := isLoaded st; items := items st;
         loading := v; newItemContent := newItemContent st;
         showComments := showComments st; newComments := newComments st |}
  | setNewItemContent v =>
      {| user := user st; isLoaded := isLoaded st; items := items st;
         loading := loading st; newItemContent := v;
         showComments := showComments st; newComments := newComments st |}
  | setNewComments v =>
      {| user := user st; isLoaded := isLoaded st; items := items st;
         loading := loading st; newItemContent := newItemContent st;
         showComments := showComments st; newComments := v |}
  end.

(** A caught value, as the [catch] blocks read it: [error?.message] and
    [error?.error?.message]. *)
Record JsError : Type := {
  message : option string;
  error_message : option string
}.

(** [a || b] where [a] may be [undefined] or a string. *)
Definition or_else (a : option string) (b : string) : string :=
  match a with
  | Some s => if truthy s then s else b
  | None => b
  end.

(** [error?.message || error?.error?.message || fallback] *)
Definition errorMessage (error : JsError) (fallback : string) : string :=
  or_else (message error) (or_else (error_message error) fallback).

(** The [{ data, error }] result of a backend call: [Failure] when [error]
    is set (a rejected call is caught by the same [catch] block). *)
Inductive Response (A : Type) : Type :=
| Failure (error : JsError)
| Success (data : A).
Arguments Failure {A} error.
Arguments Success {A} data.

(** What a handler asks of its environment, with the type of the answer. *)
Inductive Request : Type -> Type :=
| SelectItems : Request (Response (option (list RetroItem.t)))
| InsertItem (category : Category) (content created_by : string)
  : Request (Response RetroItem.t)
| InsertVote (retro_item_id user_id : string) : Request (Response unit)
| DeleteVote (id : string) : Request (Response unit)
| InsertComment (retro_item_id user_id content : string) : Request (Response unit)
| DeleteItem (id : string) : Request (Response unit)
| DeleteComment (id : string) : Request (Response unit)
| ConsoleError (label : string) (detail : JsError + string) : Request unit
| Alert (message : string) : Request unit
| Confirm (message : string) : Request bool.

(** Handler programs: return, throw, set a state cell, or ask the
    environment and continue with its answer. *)
Inductive Prog (A : Type) : Type :=
| Ret (a : A)
| Throw (error : JsError)
| Set_ (u : Setter) (k : Prog A)
| Vis {R : Type} (q : Request R) (k : R -> Prog A).
Arguments Ret {A} a.
Arguments Throw {A} error.
Arguments Set_ {A} u k.
Arguments Vis {A R} q k.

Fixpoint Prog_bind {A B : Type} (f : A -> Prog B) (p : Prog A) : Prog B :=
  match p with
  | Ret a => f a
  | Throw e => Throw e
  | Set_ u k => Set_ u (Prog_bind f k)
  | Vis q k => Vis q (fun r => Prog_bind f (k r))
  end.

Global Instance Prog_mbind : MBind Prog := @Prog_bind.
Global Instance Prog_mret : MRet Prog := @Ret.

Definition call {R : Type} (q : Request R) : Prog R := Vis q Ret.
Definition set_ (u : Setter) : Prog unit := Set_ u (Ret tt).

(** [try { p } catch (error) { h error }] *)
Fixpoint try_catch {A : Type} (p : Prog A) (h : JsError -> Prog A) : Prog A :=
  match p with
  | Ret a => Ret a
  | Throw e => h e
  | Set_ u k => Set_ u (try_catch k h)
  | Vis q k => Vis q (fun r => try_catch (k r) h)
  end.

(** [try { p } finally { f }] *)
Fixpoint try_finally {A : Type} (p : Prog A) (f : Prog unit) : Prog A :=
  match p with
  | Ret a => _ ← f; Ret a
  | Throw e => _ ← f; Throw e
  | Set_ u k => Set_ u (try_finally k f)
  | Vis q k => Vis q (fun r => try_finally (k r) f)
  end.

(** [if (error) throw error;] *)
Definition throw_if_error {A : Type} (r : Response A) : Prog A :=
  match r with
  | Failure error => Throw error
  | Success data => Ret data
  end.

(** ** The handlers *)

(** A handler reads the state cells it closed over ([st], the state of the
    render that created it) and writes through the setters.  [await] is
    sequencing.  The calls [fetchItems()] that end a handler are not
    awaited in the source; [fetchItems] handles its own failures, so the
    call is sequenced here like the rest. *)
Section Handlers.
Variable Date_getTime : string -> Number.

Definition fetchItems : Prog unit :=
  try_finally
    (try_catch
       (_ ← set_ (setLoading true);
        r ← call SelectItems;
        data ← throw_if_error r;
        set_ (setItems (sortedData Date_getTime data)))
       (fun error =>
          _ ← call (ConsoleError "Error fetching items:" (inl error));
          let errorMessage := errorMessage error "Failed to load items." in
          call (ConsoleError "Error details:" (inr errorMessage))))
    (set_ (setLoading false)).

Definition addItem (category : Category) (st : AppState) : Prog unit :=
  let content := trim (newItemContent st category) in
  match truthy content, user st with
  | true, Some user =>
      try_catch
        (r ← call (InsertItem category content (User.id user));
         data ← throw_if_error r;
         let newItem := RetroItem.with_empty_votes_and_comments data in
         _ ← set_ (setItems (newItem :: items st));
         set_ (setNewItemContent (<[category := ""]> (newItemContent st))))
        (fun error =>
           _ ← call (ConsoleError "Error adding item:" (inl error));
           call (Alert (errorMessage error "Failed to add item. Please try again.")))
  | _, _ => Ret tt
  end.

(** [items.find((item) => item.id === itemId)?.votes?.find((vote) =>
    vote.user_id === user.id)] *)
Definition existingVote (items : list RetroItem.t) (itemId : string) (user : User.t)
  : option Vote.t :=
  match List.find (fun item => bool_decide (RetroItem.id item = itemId)) items with
  | Some item =>
      match RetroItem.votes item with
      | Some votes =>
          List.find (fun vote => bool_decide (Vote.user_id vote = User.id user)) votes
      | None => None
      end
  | None => None
  end.

Definition toggleVote (itemId : string) (st : AppState) : Prog unit :=
  match user st with
  | Some user =>
      try_catch
        (_ ← match existingVote (items st) itemId user with
             | Some existingVote =>
                 r ← call (DeleteVote (Vote.id existingVote)); throw_if_error r
             | None =>
                 r ← call (InsertVote itemId (User.id user)); throw_if_error r
             end;
         fetchItems)
        (fun error =>
           _ ← call (ConsoleError "Error toggling vote:" (inl error));
           call (Alert (errorMessage error "Failed to vote. Please try again.")))
  | None => Ret tt
  end.

Definition addComment (itemId : string) (st : AppState) : Prog unit :=
  let content := trim <$> (newComments st !! itemId) in
  match content, user st with
  | Some content, Some user =>
      if truthy content then
        try_catch
          (r ← call (InsertComment itemId (User.id user) content);
           _ ← throw_if_error r;
           _ ← set_ (setNewComments (<[itemId := ""]> (newComments st)));
           fetchItems)
          (fun error =>
             _ ← call (ConsoleError "Error adding comment:" (inl error));
             call (Alert (errorMessage error "Failed to add comment. Please try again.")))
      else Ret tt
  | _, _ => Ret tt
  end.

Definition deleteItem (itemId : string) (st : AppState) : Prog unit :=
  match user st with
  | Some _ =>
      confirmed ← call (Confirm
        "Are you sure you want to delete this item? This will also delete all votes and comments.");
      if confirmed : bool then
        try_catch
          (r ← call (DeleteItem itemId);
           _ ← throw_if_error r;
           fetchItems)
          (fun error =>
             _ ← call (ConsoleError "Error deleting item:" (inl error));
             call (Alert (errorMessage error "Failed to delete item. Please try again.")))
      else Ret tt
  | None => Ret tt
  end.

Definition deleteComment (commentId : string) (st : AppState) : Prog unit :=
  match user st with
  | Some _ =>
      confirmed ← call (Confirm "Are you sure you want to delete this comment?");
      if confirmed : bool then
        try_catch
          (r ← call (DeleteComment commentId);
           _ ← throw_if_error r;
           fetchItems)
          (fun error =>
             _ ← call (ConsoleError "Error deleting comment:" (inl error));
             call (Alert (errorMessage error "Failed to delete comment. Please try again.")))
      else Ret tt
  | None => Ret tt
  end.

(** The five controls of the page and the handler each one invokes. *)
Inductive Action : Type :=
| AddItem (category : Category)
| ToggleVote (itemId : string)
| AddComment (itemId : string)
| DeleteItemOf (itemId : string)
| DeleteCommentOf (commentId : string).

Definition handler (a : Action) (st : AppState) : Prog unit :=
  match a with
  | AddItem category => addItem category st
  | ToggleVote itemId => toggleVote itemId st
  | AddComment itemId => addComment itemId st
  | DeleteItemOf itemId => deleteItem itemId st
  | DeleteCommentOf commentId => deleteComment commentId st
  end.
End Handlers.

(** ** Running a handler *)

(** One interaction with the environment: the request and its answer. *)
Inductive Event : Type :=
| Ev {R : Type} (q : Request R) (r : R).

(** How a handler invocation ends: normally, or with an error that nothing
    caught (a rejected promise). *)
Inductive Outcome (A : Type) : Type :=
| Returned (a : A)
| Uncaught (error : JsError).
Arguments Returned {A} a.
Arguments Uncaught {A} error.

Record Result (W A : Type) : Type := {
  outcome : Outcome A;
  state : AppState;
  world : W;
  trace : list Event
}.
Arguments outcome {W A} r.
Arguments state {W A} r.
Arguments world {W A} r.
Arguments trace {W A} r.

Section Run.
Context {W : Type}.
(** The environment: it answers every request and moves on. *)
Variable env : forall R : Type, Request R -> W -> R * W.

Fixpoint run {A : Type} (p : Prog A) (st : AppState) (w : W) : Result W A :=
  match p with
  | Ret a => {| outcome := Returned a; state := st; world := w; trace := [] |}
  | Throw e => {| outcome := Uncaught e; state := st; world := w; trace := [] |}
  | Set_ u k => run k (apply_setter u st) w
  | Vis q k =>
      let '(r, w') := env _ q w in
      let res := run (k r) st w' in
      {| outcome := outcome res; state := state res; world := world res;
         trace := Ev q r :: trace res |}
  end.
End Run.

(** *** Reading a trace *)

Definition is_mutation {R : Type} (q : Request R) : bool :=
  match q with
  | InsertItem _ _ _ | InsertVote _ _ | DeleteVote _
  | InsertComment _ _ _ | DeleteItem _ | DeleteComment _ => true
  | _ => false
  end.

Definition is_select {R : Type} (q : Request R) : bool :=
  match q with
  | SelectItems => true
  | _ => false
  end.

Definition is_backend_call (ev : Event) : bool :=
  match ev with
  | Ev q _ => is_mutation q || is_select q
  end.

Definition is_mutation_call (ev : Event) : bool :=
  match ev with
  | Ev q _ => is_mutation q
  end.

Definition is_select_call (ev : Event) : bool :=
  match ev with
  | Ev q _ => is_select q
  end.

(** The error of a failed backend call. *)
Definition response_error {R : Type} (q : Request R) : R -> option JsError :=
  match q in Request R return R -> option JsError with
  | SelectItems => fun r => match r with Failure e => Some e | Success _ => None end
  | InsertItem _ _ _ => fun r => match r with Failure e => Some e | Success _ => None end
  | InsertVote _ _ => fun r => match r with Failure e => Some e | Success _ => None end
  | DeleteVote _ => fun r => match r with Failure e => Some e | Success _ => None end
  | InsertComment _ _ _ => fun r => match r with Failure e => Some e | Success _ => None end
  | DeleteItem _ => fun r => match r with Failure e => Some e | Success _ => None end
  | DeleteComment _ => fun r => match r with Failure e => Some e | Success _ => None end
  | ConsoleError _ _ => fun _ => None
  | Alert _ => fun _ => None
  | Confirm _ => fun _ => None
  end.

Definition call_error (ev : Event) : option JsError :=
  match ev with
  | Ev q r => response_error q r
  end.

(** The text of an [alert]. *)
Definition alert_text (ev : Event) : option string :=
  match ev with
  | Ev (Alert message) _ => Some message
  | Ev _ _ => None
  end.

Definition backend_calls (tr : list Event) : list Event :=
  List.filter is_backend_call tr.
Definition mutation_calls (tr : list Event) : list Event :=
  List.filter is_mutation_call tr.
Definition select_calls (tr : list Event) : list Event :=
  List.filter is_select_call tr.
Definition alerts (tr : list Event) : list string :=
  omap alert_text tr.

(** ** The backend *)

(** Modelled from the spec: the external backend of section 6, which is a
    hosted service and not part of the repository.  Three tables and a
    table of display names; [select] joins each item with its votes and
    comments, [insert] appends a row with a generated identifier, [delete]
    removes the rows whose identifier matches, and deleting an item also
    deletes its votes and comments.  No uniqueness constraint on
    (item, user) is modelled: the spec places that invariant in the client. *)
Module Db.
Record ItemRow : Type := {
  item_id : string;
  item_category : Category;
  item_content : string;
  item_created_by : string;
  item_created_at : string
}.

Record VoteRow : Type := {
  vote_id : string;
  vote_retro_item_id : string;
  vote_user_id : string
}.

Record CommentRow : Type := {
  comment_id : string;
  comment_retro_item_id : string;
  comment_user_id : string;
  comment_content : string;
  comment_created_at : string
}.

Record t : Type := {
  retro_items : list ItemRow;
  votes : list VoteRow;
  comments : list CommentRow;
  users : gmap string string
}.

Definition nickname_of (db : t) (user_id : string) : option Users :=
  (fun n => {| nickname := n |}) <$> users db !! user_id.

Definition embed_vote (db : t) (v : VoteRow) : Vote.t :=
  {| Vote.id := vote_id v; Vote.retro_item_id := vote_retro_item_id v;
     Vote.user_id := vote_user_id v;
     Vote.users := nickname_of db (vote_user_id v) |}.

Definition embed_comment (db : t) (c : CommentRow) : Comment.t :=
  {| Comment.id := comment_id c;
     Comment.retro_item_id := comment_retro_item_id c;
     Comment.user_id := comment_user_id c;
     Comment.content := comment_content c;
     Comment.created_at := comment_created_at c;
     Comment.users := nickname_of db (comment_user_id c) |}.

(** The votes of one item, in table order. *)
Definition votes_of (db : t) (itemId : string) : list VoteRow :=
  filter (fun v => vote_retro_item_id v = itemId) (votes db).

Definition comments_of (db : t) (itemId : string) : list CommentRow :=
  filter (fun c => comment_retro_item_id c = itemId) (comments db).

Definition join (db : t) (it : ItemRow) : RetroItem.t :=
  {| RetroItem.id := item_id it;
     RetroItem.category := item_category it;
     RetroItem.content := item_content it;
     RetroItem.created_by := item_created_by it;
     RetroItem.created_at := item_created_at it;
     RetroItem.votes := Some (embed_vote db <$> votes_of db (item_id it));
     RetroItem.comments := Some (embed_comment db <$> comments_of db (item_id it));
     RetroItem.users := nickname_of db (item_created_by it) |}.

(** The query of [fetchItems]. *)
Definition select_items (db : t) : list RetroItem.t := join db <$> retro_items db.

(** The row that [insert(...).select(...).single()] returns in [addItem]:
    the item with its creator's display name, without votes or comments. *)
Definition inserted_item (db : t) (it : ItemRow) : RetroItem.t :=
  {| RetroItem.id := item_id it;
     RetroItem.category := item_category it;
     RetroItem.content := item_content it;
     RetroItem.created_by := item_created_by it;
     RetroItem.created_at := item_created_at it;
     RetroItem.votes := None;
     RetroItem.comments := None;
     RetroItem.users := nickname_of db (item_created_by it) |}.

Definition insert_item (it : ItemRow) (db : t) : t :=
  {| retro_items := retro_items db ++ [it]; votes := votes db;
     comments := comments db; users := users db |}.

Definition insert_vote (v : VoteRow) (db : t) : t :=
  {| retro_items := retro_items db; votes := votes db ++ [v];
     comments := comments db; users := users db |}.

Definition delete_vote (id : string) (db : t) : t :=
  {| retro_items := retro_items db;
     votes := filter (fun v => vote_id v ≠ id) (votes db);
     comments := comments db; users := users db |}.

Definition insert_comment (c : CommentRow) (db : t) : t :=
  {| retro_items := retro_items db; votes := votes db;
     comments := comments db ++ [c]; users := users db |}.

Definition delete_item (id : string) (db : t) : t :=
  {| retro_items := filter (fun it => item_id it ≠ id) (retro_items db);
     votes := filter (fun v => vote_retro_item_id v ≠ id) (votes db);
     comments := filter (fun c => comment_retro_item_id c ≠ id) (comments db);
     users := users db |}.

Definition delete_comment (id : string) (db : t) : t :=
  {| retro_items := retro_items db; votes := votes db;
     comments := filter (fun c => comment_id c ≠ id) (comments db);
     users := users db |}.

(** At most one vote for each (item, user) pair. *)
Definition vote_key (v : VoteRow) : string * string :=
  (vote_retro_item_id v, vote_user_id v).

Definition one_vote_per_user (db : t) : Prop :=
  NoDup (vote_key <$> votes db).
End Db.

(** The world a session runs in: the backend's tables, the identifiers and
    timestamps it will generate, the calls that are going to fail, and the
    user's answers to the confirmation prompts. *)
Record World : Type := {
  db : Db.t;
  uuid : nat -> string;
  now : nat -> string;
  tick : nat;
  faults : list (option JsError);
  confirms : list bool
}.

Definition with_db (f : Db.t -> Db.t) (w : World) : World :=
  {| db := f (db w); uuid := uuid w; now := now w; tick := tick w;
     faults := faults w; confirms := confirms w |}.

Definition next_tick (w : World) : World :=
  {| db := db w; uuid := uuid w; now := now w; tick := S (tick w);
     faults := faults w; confirms := confirms w |}.

Definition with_faults (fs : list (option JsError)) (w : World) : World :=
  {| db := db w; uuid := uuid w; now := now w; tick := tick w;
     faults := fs; confirms := confirms w |}.

Definition with_confirms (cs : list bool) (w : World) : World :=
  {| db := db w; uuid := uuid w; now := now w; tick := tick w;
     faults := faults w; confirms := cs |}.

(** A backend call consumes one entry of [faults]: [Some e] makes the call
    fail with [e] and leaves the tables alone; otherwise the call executes. *)
Definition backend_call {A : Type} (exec : World -> A * World) (w : World)
  : Response A * World :=
  match faults w with
  | Some e :: fs => (Failure e, with_faults fs w)
  | None :: fs => let '(a, w') := exec (with_faults fs w) in (Success a, w')
  | [] => let '(a, w') := exec w in (Success a, w')
  end.

Definition new_item_row (w : World) (category : Category) (content created_by : string)
  : Db.ItemRow :=
  {| Db.item_id := uuid w (tick w); Db.item_category := category;
     Db.item_content := content; Db.item_created_by := created_by;
     Db.item_created_at := now w (tick w) |}.

Definition new_vote_row (w : World) (retro_item_id user_id : string) : Db.VoteRow :=
  {| Db.vote_id := uuid w (tick w); Db.vote_retro_item_id := retro_item_id;
     Db.vote_user_id := user_id |}.

Definition new_comment_row (w : World) (retro_item_id user_id content : string)
  : Db.CommentRow :=
  {| Db.comment_id := uuid w (tick w); Db.comment_retro_item_id := retro_item_id;
     Db.comment_user_id := user_id; Db.comment_content := content;
     Db.comment_created_at := now w (tick w) |}.

Definition server (R : Type) (q : Request R) : World -> R * World :=
  match q in Request R return World -> R * World with
  | SelectItems =>
      backend_call (fun w => (Some (Db.select_items (db w)), w))
  | InsertItem category content created_by =>
      backend_call (fun w =>
        let row := new_item_row w category content created_by in
        (Db.inserted_item (db w) row, next_tick (with_db (Db.insert_item row) w)))
  | InsertVote retro_item_id user_id =>
      backend_call (fun w =>
        (tt, next_tick (with_db (Db.insert_vote (new_vote_row w retro_item_id user_id)) w)))
  | DeleteVote id =>
      backend_call (fun w => (tt, with_db (Db.delete_vote id) w))
  | InsertComment retro_item_id user_id content =>
      backend_call (fun w =>
        (tt, next_tick (with_db
               (Db.insert_comment (new_comment_row w retro_item_id user_id content)) w)))
  | DeleteItem id =>
      backend_call (fun w => (tt, with_db (Db.delete_item id) w))
  | DeleteComment id =>
      backend_call (fun w => (tt, with_db (Db.delete_comment id) w))
  | ConsoleError _ _ => fun w => (tt, w)
  | Alert _ => fun w => (tt, w)
  | Confirm _ => fun w =>
      match confirms w with
      | c :: cs => (c, with_confirms cs w)
      | [] => (false, w)
      end
  end.

(** ** A sample session *)

Module Sample.
(** Time values of the three timestamps used below (milliseconds since the
    epoch); any other string is taken not to parse. *)
Definition getTime (s : string) : Number :=
  if bool_decide (s = "2024-01-15T10:00:00Z") then Num 1705312800000
  else if bool_decide (s = "2024-01-15T11:00:00Z") then Num 1705316400000
  else if bool_decide (s = "2024-01-15T12:00:00Z") then Num 1705320000000
  else NaN.

Definition alice : User.t := {| User.id := "u-alice" |}.
Definition bob : User.t := {| User.id := "u-bob" |}.

Definition rowA : Db.ItemRow :=
  {| Db.item_id := "A"; Db.item_category := good; Db.item_content := "standups";
     Db.item_created_by := "u-alice"; Db.item_created_at := "2024-01-15T10:00:00Z" |}.
Definition rowB : Db.ItemRow :=
  {| Db.item_id := "B"; Db.item_category := good; Db.item_content := "pairing";
     Db.item_created_by := "u-bob"; Db.item_created_at := "2024-01-15T11:00:00Z" |}.
Definition rowC : Db.ItemRow :=
  {| Db.item_id := "C"; Db.item_category := good; Db.item_content := "demos";
     Db.item_created_by := "u-bob"; Db.item_created_at := "2024-01-15T12:00:00Z" |}.
Definition rowD : Db.ItemRow :=
  {| Db.item_id := "D"; Db.item_category := bad; Db.item_content := "flaky tests";
     Db.item_created_by := "u-alice"; Db.item_created_at := "2024-01-15T11:00:00Z" |}.

Definition vote (id item user : string) : Db.VoteRow :=
  {| Db.vote_id := id; Db.vote_retro_item_id := item; Db.vote_user_id := user |}.

(** Items A and B have two votes each, C and D none; nothing is in
    category [better]. *)
Definition db0 : Db.t :=
  {| Db.retro_items := [rowA; rowB; rowC; rowD];
     Db.votes := [vote "v1" "A" "u-bob"; vote "v2" "A" "u-carol";
                  vote "v3" "B" "u-bob"; vote "v4" "B" "u-carol"];
     Db.comments := [];
     Db.users := {[ "u-alice" := "Alice"; "u-bob" := "Bob" ]} |}.

Definition gen_uuid (n : nat) : string := "gen-" +:+ pretty n.

Definition world0 : World :=
  {| db := db0; uuid := gen_uuid; now := fun _ => "2024-01-15T12:00:00Z";
     tick := 0; faults := []; confirms := [] |}.

Definition failing (e : JsError) (w : World) : World := with_faults [Some e] w.

Definition network_down : JsError :=
  {| message := Some "Network request failed"; error_message := None |}.
Definition opaque_error : JsError :=
  {| message := None; error_message := None |}.

Definition drafts (c : Category) : string :=
  match c with
  | good => "  retro went well "
  | bad => "   "
  | better => ""
  end.

(** Alice is signed in and looks at a freshly loaded board. *)
Definition state0 : AppState :=
  {| user := Some alice; isLoaded := true;
     items := sortedData getTime (Some (Db.select_items db0));
     loading := false; newItemContent := drafts;
     showComments := ∅;
     newComments := {[ "A" := "agreed"; "B" := "  " ]} |}.

(** The insert of a vote goes through and the reload after it fails. *)
Definition reload_fails : World := with_faults [None; Some network_down] world0.

Definition after_vote : Result World unit :=
  run server (toggleVote getTime "A" state0) state0 reload_fails.

Definition signed_out : AppState :=
  {| user := None; isLoaded := true; items := items state0; loading := false;
     newItemContent := drafts; showComments := ∅;
     newComments := newComments state0 |}.
End Sample.

(** ** Vocabulary of the properties *)

(** The order the board promises between an item and a later one: more
    votes, or as many votes and a creation time that is not earlier. *)
Definition ranked_before (Date_getTime : string -> Number) (a b : RetroItem.t) : Prop :=
  (voteCount b < voteCount a)%Z \/
  (voteCount a = voteCount b /\
   Number_ge (createdAt Date_getTime a) (createdAt Date_getTime b)).

(** [x] may stand before [y] in a list sorted with [comparefn]. *)
Definition in_order {A : Type} (comparefn : A -> A -> Number) (x y : A) : Prop :=
  (SortCompare comparefn x y <= 0)%Z.

(** What ECMAScript asks of the result [l'] of sorting [l] with a comparator
    that is consistent on the elements satisfying [P]: the same elements, in
    order, and those that compare as equal in the order they had in [l]. *)
Definition sorted_stably {A : Type} (comparefn : A -> A -> Number) (P : A -> Prop)
    (l l' : list A) : Prop :=
  l' ≡ₚ l /\
  StronglySorted (in_order comparefn) l' /\
  forall x, P x ->
    filter (fun y => SortCompare comparefn x y = 0%Z) l'
    = filter (fun y => SortCompare comparefn x y = 0%Z) l.

(** Every [created_at] of the list parses to a time value. *)
Definition valid_dates (Date_getTime : string -> Number) (l : list RetroItem.t) : Prop :=
  Forall (fun x => createdAt Date_getTime x ≠ NaN) l.

Fixpoint onlyWhiteSpace (s : string) : bool :=
  match s with
  | EmptyString => true
  | String c s' => isWhiteSpace c && onlyWhiteSpace s'
  end.

(** The text shown in an item's comment box: [newComments[item.id] || '']. *)
Definition commentDraft (st : AppState) (itemId : string) : string :=
  default "" (newComments st !! itemId).

(** A handler invocation that did nothing: it returned at once, asked
    nothing of its environment and set no state. *)
Definition idle {W : Type} (st : AppState) (w : W) : Result W unit :=
  {| outcome := Returned tt; state := st; world := w; trace := [] |}.

(** The fallback text of each handler's [catch] block. *)
Definition fallback (a : Action) : string :=
  match a with
  | AddItem _ => "Failed to add item. Please try again."
  | ToggleVote _ => "Failed to vote. Please try again."
  | AddComment _ => "Failed to add comment. Please try again."
  | DeleteItemOf _ => "Failed to delete item. Please try again."
  | DeleteCommentOf _ => "Failed to delete comment. Please try again."
  end.

(** The guard at the top of each handler. *)
Definition ready (a : Action) (st : AppState) : bool :=
  match a with
  | AddItem category =>
      truthy (trim (newItemContent st category)) && bool_decide (is_Some (user st))
  | AddComment itemId =>
      truthy (trim (commentDraft st itemId)) && bool_decide (is_Some (user st))
  | ToggleVote _ | DeleteItemOf _ | DeleteCommentOf _ =>
      bool_decide (is_Some (user st))
  end.

(** A confirmation prompt that the user dismissed. *)
Definition declined (ev : Event) : bool :=
  match ev with
  | Ev (Confirm _) r => negb r
  | Ev _ _ => false
  end.

Definition succeeded (ev : Event) : bool :=
  bool_decide (call_error ev = None).

(** The view model shows a vote of [user] on the item [itemId]. *)
Definition view_has_vote (items : list RetroItem.t) (itemId : string) (user : User.t)
  : Prop :=
  exists item votes vote,
    item ∈ items /\ RetroItem.id item = itemId /\
    RetroItem.votes item = Some votes /\ vote ∈ votes /\
    Vote.user_id vote = User.id user.

(** The backend stores a vote of [userId] on the item [itemId]. *)
Definition stored_vote (d : Db.t) (itemId userId : string) : Prop :=
  (itemId, userId) ∈ Db.vote_key <$> Db.votes d.

(** The view model is fresh enough for a toggle: when it shows no vote of
    the user on the item, the backend stores none. *)
Definition view_is_fresh (st : AppState) (w : World) (itemId : string) (u : User.t)
  : Prop :=
  existingVote (items st) itemId u = None ->
  ~ stored_vote (db w) itemId (User.id u).

(** The reading of "every handler reloads after a successful mutation" that
    the code is checked against: whenever a handler's mutation succeeds, a
    select follows. *)
Definition every_handler_reloads (Date_getTime : string -> Number) : Prop :=
  forall (a : Action) (st : AppState) (w : World) (m : Event),
    let res := run server (handler Date_getTime a st) st w in
    m ∈ trace res -> is_mutation_call m = true -> succeeded m = true ->
    select_calls (trace res) ≠ [].

(** The reading of "toggling preserves one vote per (item, user)" without
    any assumption on how fresh the view model is. *)
Definition toggle_keeps_one_vote_per_user (Date_getTime : string -> Number) : Prop :=
  forall (itemId : string) (st : AppState) (w : World),
    is_Some (user st) ->
    Db.one_vote_per_user (db w) ->
    Db.one_vote_per_user
      (db (world (run server (toggleVote Date_getTime itemId st) st w))).

(** The reading of "voting then un-voting restores the votes of the item"
    with what the sentence itself stipulates -- the first toggle votes (the
    board shows no vote of the user), every call succeeds, the second
    toggle runs on the board reloaded by the first -- and no assumption on
    what the backend already stores for the user. *)
Definition toggle_twice_restores_votes (Date_getTime : string -> Number) : Prop :=
  forall (itemId : string) (st : AppState) (w : World) (u : User.t),
    user st = Some u ->
    existingVote (items st) itemId u = None ->
    (exists row, row ∈ Db.retro_items (db w) /\ Db.item_id row = itemId) ->
    uuid w (tick w) ∉ (Db.vote_id <$> Db.votes (db w)) ->
    faults w = [] ->
    let r1 := run server (toggleVote Date_getTime itemId st) st w in
    let r2 :=
      run server (toggleVote Date_getTime itemId (state r1)) (state r1) (world r1) in
    Db.votes_of (db (world r2)) itemId = Db.votes_of (db w) itemId.

(** ** The rest of the component: projections and controls *)

(** [x?.nickname || 'Anonymous'], the name shown for a creator, a voter or
    a comment author. *)
Definition displayName (users : option Users) : string :=
  or_else (nickname <$> users) "Anonymous".

(** [item.votes?.map((vote) => vote.users?.nickname || 'Anonymous')
    .join(', ') || ''] *)
Definition getVoterNames (item : RetroItem.t) : string :=
  or_else
    (String.concat ", " <$>
       (map (fun vote => displayName (Vote.users vote)) <$> RetroItem.votes item))
    "".

(** [user && item.created_by === user.id]: without a user the value is the
    falsy [user] itself ([None]), else the boolean. *)
Definition isItemOwner (user : option User.t) (item : RetroItem.t) : option bool :=
  (fun u => bool_decide (RetroItem.created_by item = User.id u)) <$> user.

(** [user && comment.user_id === user.id] *)
Definition isCommentOwner (user : option User.t) (comment : Comment.t) : option bool :=
  (fun u => bool_decide (Comment.user_id comment = User.id u)) <$> user.

(** Whether [{cond && (<button .../>)}] renders its button. *)
Definition rendered (cond : option bool) : bool := default false cond.

(** [showComments[item.id]] as the render tests it. *)
Definition commentsShown (st : AppState) (itemId : string) : bool :=
  default false (showComments st !! itemId).

(** The click on "Show/Hide Comments":
    [setShowComments({ ...showComments, [item.id]: !showComments[item.id] })]. *)
Definition toggleComments (itemId : string) (st : AppState) : AppState :=
  {| user := user st; isLoaded := isLoaded st; items := items st;
     loading := loading st; newItemContent := newItemContent st;
     showComments := <[itemId := negb (commentsShown st itemId)]> (showComments st);
     newComments := newComments st |}.

(** [onChange] of a category's text area:
    [setNewItemContent({ ...newItemContent, [category]: e.target.value })]. *)
Definition onChangeItem (category : Category) (value : string) (st : AppState)
  : AppState :=
  apply_setter (setNewItemContent (<[category := value]> (newItemContent st))) st.

(** [onChange] of an item's comment box:
    [setNewComments({ ...newComments, [item.id]: e.target.value })]. *)
Definition onChangeComment (itemId : string) (value : string) (st : AppState)
  : AppState :=
  apply_setter (setNewComments (<[itemId := value]> (newComments st))) st.

(** [disabled={!newItemContent[category].trim()}] *)
Definition addItemDisabled (st : AppState) (category : Category) : bool :=
  negb (truthy (trim (newItemContent st category))).

(** [disabled={!newComments[item.id]?.trim()}] *)
Definition addCommentDisabled (st : AppState) (itemId : string) : bool :=
  negb (default false (truthy <$> (trim <$> newComments st !! itemId))).

(** The environment variables read at start-up; [None] is [undefined]. *)
Record ImportMetaEnv : Type := {
  VITE_INSFORGE_BASE_URL : option string;
  VITE_INSFORGE_ANON_KEY : option string
}.

(** The argument of [createClient] in [lib/insforge.ts]. *)
Record ClientConfig : Type := {
  baseUrl : string;
  anonKey : string
}.

Definition insforge_config (env : ImportMetaEnv) : ClientConfig :=
  {| baseUrl := or_else (VITE_INSFORGE_BASE_URL env)
                  "https://kh2b392k.us-east.insforge.app";
     anonKey := or_else (VITE_INSFORGE_ANON_KEY env) "" |}.

(** The [baseUrl] prop given to [InsforgeProvider] in the entry file. *)
Definition provider_baseUrl (env : ImportMetaEnv) : string :=
  or_else (VITE_INSFORGE_BASE_URL env) "https://kh2b392k.us-east.insforge.app".

(** The row that a successful insert of an item returned. *)
Definition response_row {R : Type} (q : Request R) : R -> option RetroItem.t :=
  match q in Request R return R -> option RetroItem.t with
  | InsertItem _ _ _ =>
      fun r => match r with Success data => Some data | Failure _ => None end
  | _ => fun _ => None
  end.

Definition inserted_row (ev : Event) : option RetroItem.t :=
  match ev with
  | Ev q r => response_row q r
  end.

(** [c] is [s] without the white space around it: what is cut off on both
    sides is white space, and [c] neither starts nor ends with any. *)
Definition starts_clean (c : string) : Prop :=
  match c with
  | EmptyString => True
  | String a _ => isWhiteSpace a = false
  end.

Definition stripped (s c : string) : Prop :=
  exists pre post,
    s = pre +:+ c +:+ post /\
    onlyWhiteSpace pre = true /\ onlyWhiteSpace post = true /\
    starts_clean c /\ starts_clean (String.rev c).

(** The only cells a run may have changed are [items] and [loading]. *)
Definition same_inputs (st st' : AppState) : Prop :=
  user st' = user st /\ isLoaded st' = isLoaded st /\
  newItemContent st' = newItemContent st /\
  showComments st' = showComments st /\
  newComments st' = newComments st.

(** * Properties *)

(** ** The sort *)

Section SortFacts.
Context {A : Type} (comparefn : A -> A -> Number).

Local Abbreviation R := (in_order comparefn).

Lemma sort_insert_perm (x : A) (l : list A) :
  sort_insert comparefn x l ≡ₚ x :: l.
Proof.
  induction l as [|y l IH]; simpl; [done|].
  destruct (0 <? SortCompare comparefn x y)%Z; [|done].
  rewrite IH. apply Permutation_swap.
Qed.

Lemma Array_sort_perm (l : list A) : Array_sort comparefn l ≡ₚ l.
Proof.
  induction l as [|x l IH]; simpl; [done|].
  by rewrite sort_insert_perm, IH.
Qed.

Lemma sort_insert_HdRel (x y : A) (l : list A) :
  R y x -> HdRel R y l -> HdRel R y (sort_insert comparefn x l).
Proof.
  intros Hyx Hl. destruct l as [|z l]; simpl; [by constructor|].
  destruct (0 <? SortCompare comparefn x z)%Z; constructor; [|done].
  by inversion Hl.
Qed.

(** A sorted list is left as it is: ties keep their input order. *)
Lemma Array_sort_sorted_id (l : list A) :
  Sorted R l -> Array_sort comparefn l = l.
Proof.
  induction 1 as [|x l Hl IH Hhd]; simpl; [done|].
  rewrite IH. destruct Hhd as [|y l Hxy]; simpl; [done|].
  unfold in_order in Hxy.
  destruct (Z.ltb_spec 0 (SortCompare comparefn x y)); [lia|done].
Qed.

Section Antisymmetric.
Hypothesis antisym :
  forall x y, (0 < SortCompare comparefn x y)%Z -> R y x.

Lemma sort_insert_Sorted (x : A) (l : list A) :
  Sorted R l -> Sorted R (sort_insert comparefn x l).
Proof.
  induction 1 as [|y l Hl IH Hhd]; simpl; [by repeat constructor|].
  destruct (Z.ltb_spec 0 (SortCompare comparefn x y)) as [Hlt|Hge].
  - constructor; [done|]. apply sort_insert_HdRel; auto.
  - constructor; [by constructor|]. constructor. unfold in_order. lia.
Qed.

Lemma Array_sort_Sorted (l : list A) : Sorted R (Array_sort comparefn l).
Proof.
  induction l as [|x l IH]; simpl; [constructor|].
  by apply sort_insert_Sorted.
Qed.

Lemma Array_sort_idempotent (l : list A) :
  Array_sort comparefn (Array_sort comparefn l) = Array_sort comparefn l.
Proof. apply Array_sort_sorted_id, Array_sort_Sorted. Qed.
End Antisymmetric.

(** On a domain [P] where the comparator is consistent, the result is
    sorted between any two positions. *)
Section Consistent.
Variable P : A -> Prop.
Hypothesis antisym :
  forall x y, P x -> P y -> (0 < SortCompare comparefn x y)%Z -> R y x.
Hypothesis trans :
  forall x y z, P x -> P y -> P z -> R x y -> R y z -> R x z.

Lemma sort_insert_StronglySorted (x : A) (l : list A) :
  P x -> Forall P l -> StronglySorted R l ->
  StronglySorted R (sort_insert comparefn x l).
Proof.
  intros Hx HP Hl. induction Hl as [|y l Hl IH Hy]; simpl.
  - by repeat constructor.
  - apply Forall_cons in HP as [HPy HPl].
    destruct (Z.ltb_spec 0 (SortCompare comparefn x y)) as [Hlt|Hge].
    + constructor; [by apply IH|].
      rewrite sort_insert_perm. constructor; auto.
    + assert (Hxy : R x y) by (unfold in_order; lia).
      constructor; [by constructor|].
      constructor; [done|].
      rewrite Forall_forall in Hy, HPl |- *.
      intros z Hz. apply (trans x y z); auto.
Qed.

Lemma Array_sort_StronglySorted (l : list A) :
  Forall P l -> StronglySorted R (Array_sort comparefn l).
Proof.
  induction 1 as [|x l Hx Hl IH]; simpl; [constructor|].
  apply sort_insert_StronglySorted; [done| |done].
  by rewrite Array_sort_perm.
Qed.

(** The comparator is a three-way comparison on [P]: swapping the arguments
    flips the sign.  Then the model is the one result that ECMAScript
    allows, whatever algorithm an engine runs. *)
Hypothesis flip :
  forall x y, P x -> P y ->
    SortCompare comparefn y x = (- SortCompare comparefn x y)%Z.

Lemma tied_trans (x y z : A) :
  P x -> P y -> P z ->
  SortCompare comparefn x y = 0%Z -> SortCompare comparefn x z = 0%Z ->
  SortCompare comparefn y z = 0%Z.
Proof.
  intros Hx Hy Hz Hxy Hxz.
  assert (R y x) by (unfold in_order; rewrite (flip x y) by done; lia).
  assert (R x z) by (unfold in_order; lia).
  assert (R z x) by (unfold in_order; rewrite (flip x z) by done; lia).
  assert (R x y) by (unfold in_order; lia).
  assert (Hyz : R y z) by eauto.
  assert (Hzy : R z y) by eauto.
  unfold in_order in Hyz, Hzy. rewrite (flip y z) in Hzy by done. lia.
Qed.

Lemma sort_insert_stable (x y : A) (l : list A) :
  P x -> P y -> Forall P l ->
  filter (fun z => SortCompare comparefn x z = 0%Z) (sort_insert comparefn y l)
  = filter (fun z => SortCompare comparefn x z = 0%Z) (y :: l).
Proof.
  intros Hx Hy. induction 1 as [|z l Hz Hl IH]; simpl; [done|].
  destruct (Z.ltb_spec 0 (SortCompare comparefn y z)) as [Hlt|Hge]; [|done].
  rewrite (filter_cons _ z), IH, !(filter_cons _ y), (filter_cons _ z).
  repeat case_decide; try done.
  assert (SortCompare comparefn y z = 0%Z) by eauto using tied_trans. lia.
Qed.

Lemma Array_sort_stable (l : list A) :
  Forall P l -> sorted_stably comparefn P l (Array_sort comparefn l).
Proof.
  intros HP. split; [apply Array_sort_perm|].
  split; [by apply Array_sort_StronglySorted|].
  intros x Hx. induction HP as [|y l Hy Hl IH]; simpl; [done|].
  rewrite sort_insert_stable, !(filter_cons _ y), IH; try done.
  by rewrite Array_sort_perm.
Qed.

Lemma sorted_stably_unique (l l1 l2 : list A) :
  Forall P l ->
  sorted_stably comparefn P l l1 -> sorted_stably comparefn P l l2 -> l1 = l2.
Proof.
  intros HP (Hp1 & Hs1 & Hf1) (Hp2 & Hs2 & Hf2).
  assert (HP1 : Forall P l1) by (by rewrite Hp1).
  assert (Hp : l1 ≡ₚ l2) by (by rewrite Hp1, Hp2).
  assert (Hf : forall x, P x ->
            filter (fun y => SortCompare comparefn x y = 0%Z) l1
            = filter (fun y => SortCompare comparefn x y = 0%Z) l2).
  { intros x Hx. by rewrite Hf1, Hf2. }
  clear Hp1 Hp2 Hf1 Hf2 HP. revert l2 Hs2 Hp Hf.
  induction Hs1 as [|h1 t1 Hs1 IH Hh1]; intros l2 Hs2 Hp Hf.
  - by apply Permutation_nil_l in Hp.
  - destruct Hs2 as [|h2 t2 Hs2 Hh2].
    { by apply Permutation_nil_r in Hp. }
    apply Forall_cons in HP1 as [HPh1 HPt1].
    assert (HPh2 : P h2).
    { assert (Hin : h2 ∈ h1 :: t1) by (rewrite Hp; set_solver).
      apply elem_of_cons in Hin as [->|Hin]; [done|].
      rewrite Forall_forall in HPt1. auto. }
    assert (Hrefl : forall x, P x -> SortCompare comparefn x x = 0%Z).
    { intros x Hx. pose proof (flip x x Hx Hx). lia. }
    assert (H12 : R h1 h2).
    { assert (Hin : h2 ∈ h1 :: t1) by (rewrite Hp; set_solver).
      apply elem_of_cons in Hin as [->|Hin].
      - unfold in_order. rewrite Hrefl; [lia|done].
      - rewrite Forall_forall in Hh1. auto. }
    assert (H21 : R h2 h1).
    { assert (Hin : h1 ∈ h2 :: t2) by (rewrite <- Hp; set_solver).
      apply elem_of_cons in Hin as [->|Hin].
      - unfold in_order. rewrite Hrefl; [lia|done].
      - rewrite Forall_forall in Hh2. auto. }
    assert (Htie : SortCompare comparefn h1 h2 = 0%Z).
    { unfold in_order in H12, H21. rewrite (flip h1 h2) in H21 by done. lia. }
    pose proof (Hf h1 HPh1) as Hhead.
    rewrite (filter_cons_True _ h1 t1), (filter_cons_True _ h2 t2) in Hhead
      by auto.
    injection Hhead as -> _. f_equal.
    apply IH; [done|done|by apply Permutation_cons_inv in Hp|].
    intros x Hx. pose proof (Hf x Hx) as Hfx.
    rewrite !(filter_cons _ h2) in Hfx. case_decide; [|done]. by simplify_eq.
Qed.

Lemma Array_sort_unique (l l' : list A) :
  Forall P l -> sorted_stably comparefn P l l' -> l' = Array_sort comparefn l.
Proof.
  intros HP Hl'. eapply sorted_stably_unique; [done|done|].
  by apply Array_sort_stable.
Qed.
End Consistent.
End SortFacts.

Lemma precedes_StronglySorted {A : Type} (R : relation A) (a b : A) (l : list A) :
  StronglySorted R l -> precedes a b l -> R a b.
Proof.
  intros Hl (l1 & l2 & l3 & ->).
  apply StronglySorted_app_1_r, StronglySorted_cons in Hl as [Ha _].
  rewrite Forall_forall in Ha. apply Ha. set_solver.
Qed.

Lemma precedes_cons {A : Type} (a b x : A) (l : list A) :
  precedes a b (x :: l) <-> (a = x /\ b ∈ l) \/ precedes a b l.
Proof.
  split.
  - intros (l1 & l2 & l3 & Heq). destruct l1 as [|y l1]; simplify_eq/=.
    + left. split; [done|]. set_solver.
    + right. by exists l1, l2, l3.
  - intros [[-> Hb]|(l1 & l2 & l3 & ->)].
    + apply list_elem_of_split in Hb as (l2 & l3 & ->). by exists [], l2, l3.
    + by exists (x :: l1), l2, l3.
Qed.

(** Filtering keeps the relative order of the elements it keeps. *)
Lemma precedes_filter {A : Type} (P : A -> Prop) `{!forall x, Decision (P x)}
    (a b : A) (l : list A) :
  precedes a b (filter P l) -> precedes a b l.
Proof.
  induction l as [|x l IH]; simpl.
  - intros (l1 & l2 & l3 & Heq). by destruct l1.
  - rewrite filter_cons. destruct (decide (P x)).
    + rewrite !precedes_cons. intros [[-> Hb]|Hab]; [left|right; auto].
      split; [done|]. by apply list_elem_of_filter in Hb as [_ ?].
    + rewrite precedes_cons. auto.
Qed.

(** ** The comparator of [fetchItems] *)

Section Ranking.
Variable Date_getTime : string -> Number.

Local Abbreviation cmp := (compareItems Date_getTime).
Local Abbreviation valid := (fun x : RetroItem.t => createdAt Date_getTime x ≠ NaN).

Lemma compareItems_antisym (a b : RetroItem.t) :
  (0 < SortCompare cmp a b)%Z -> in_order cmp b a.
Proof.
  unfold in_order, SortCompare, compareItems, Number_sub.
  destruct (Z.eqb_spec (voteCount b) (voteCount a)) as [Heq|Hne]; simpl.
  - rewrite Heq, Z.eqb_refl. simpl.
    destruct (createdAt Date_getTime b), (createdAt Date_getTime a); lia.
  - destruct (Z.eqb_spec (voteCount a) (voteCount b)); simpl; lia.
Qed.

Lemma in_order_ranked_before (a b : RetroItem.t) :
  valid a -> valid b ->
  in_order cmp a b <-> ranked_before Date_getTime a b.
Proof.
  unfold in_order, SortCompare, compareItems, Number_sub, ranked_before, Number_ge.
  intros Ha Hb.
  destruct (Z.eqb_spec (voteCount b) (voteCount a)) as [Heq|Hne]; simpl.
  - destruct (createdAt Date_getTime a), (createdAt Date_getTime b); try done.
    split; [intros; right; split; [done|lia]|intros [?|[_ ?]]; lia].
  - split; [intros; left; lia|intros [?|[? _]]; [lia|congruence]].
Qed.

Lemma in_order_trans (a b c : RetroItem.t) :
  valid a -> valid b -> valid c ->
  in_order cmp a b -> in_order cmp b c -> in_order cmp a c.
Proof.
  intros Ha Hb Hc. rewrite !in_order_ranked_before by done.
  unfold ranked_before, Number_ge. simpl in Ha, Hb, Hc.
  destruct (createdAt Date_getTime a), (createdAt Date_getTime b),
    (createdAt Date_getTime c); try done.
  lia.
Qed.

Lemma sortedData_perm (data : option (list RetroItem.t)) :
  sortedData Date_getTime data ≡ₚ default [] data.
Proof. apply Array_sort_perm. Qed.

Lemma sortedData_StronglySorted (data : option (list RetroItem.t)) :
  valid_dates Date_getTime (default [] data) ->
  StronglySorted (in_order cmp) (sortedData Date_getTime data).
Proof.
  apply (Array_sort_StronglySorted cmp valid).
  - intros x y _ _. apply compareItems_antisym.
  - apply in_order_trans.
Qed.

Lemma sortedData_ranked (data : option (list RetroItem.t)) (a b : RetroItem.t) :
  valid_dates Date_getTime (default [] data) ->
  precedes a b (sortedData Date_getTime data) ->
  ranked_before Date_getTime a b.
Proof.
  intros Hv Hab.
  assert (Hin : forall x, x ∈ sortedData Date_getTime data -> valid x).
  { intros x Hx. rewrite sortedData_perm in Hx.
    unfold valid_dates in Hv. rewrite Forall_forall in Hv. auto. }
  apply in_order_ranked_before.
  - destruct Hab as (l1 & l2 & l3 & Heq). apply Hin. rewrite Heq. set_solver.
  - destruct Hab as (l1 & l2 & l3 & Heq). apply Hin. rewrite Heq. set_solver.
  - eapply precedes_StronglySorted; [|done]. by apply sortedData_StronglySorted.
Qed.

Lemma compareItems_flip (a b : RetroItem.t) :
  valid a -> valid b -> SortCompare cmp b a = (- SortCompare cmp a b)%Z.
Proof.
  unfold SortCompare, compareItems, Number_sub. intros Ha Hb.
  destruct (Z.eqb_spec (voteCount b) (voteCount a)) as [Heq|Hne]; simpl.
  - rewrite Heq, Z.eqb_refl. simpl.
    destruct (createdAt Date_getTime a), (createdAt Date_getTime b); try done.
    lia.
  - destruct (Z.eqb_spec (voteCount a) (voteCount b)); simpl; [congruence|lia].
Qed.

(** Any engine's sort of rows whose dates parse returns the list that the
    model returns. *)
Lemma sortedData_unique (data : option (list RetroItem.t)) (l' : list RetroItem.t) :
  valid_dates Date_getTime (default [] data) ->
  sorted_stably cmp valid (default [] data) l' ->
  l' = sortedData Date_getTime data.
Proof.
  apply (Array_sort_unique cmp valid).
  - intros x y _ _. apply compareItems_antisym.
  - apply in_order_trans.
  - apply compareItems_flip.
Qed.

Lemma sortedData_idempotent (data : option (list RetroItem.t)) :
  sortedData Date_getTime (Some (sortedData Date_getTime data))
  = sortedData Date_getTime data.
Proof. apply Array_sort_idempotent, compareItems_antisym. Qed.
End Ranking.

(** The scenario of the spec: A and B with two votes each, B more recent, and
    C without votes come out as B, A, C (D is the item of another category). *)
Example sorted_sample :
  RetroItem.id <$> items Sample.state0 = ["B"; "A"; "C"; "D"].
Proof. reflexivity. Qed.

(** ** Running [fetchItems] *)

Section RunFacts.
Context {W : Type} (env : forall R : Type, Request R -> W -> R * W).
Variable Date_getTime : string -> Number.

Lemma run_fetchItems_success (st : AppState) (w w' : W)
    (data : option (list RetroItem.t)) :
  env _ SelectItems w = (Success data, w') ->
  run env (fetchItems Date_getTime) st w =
    {| outcome := Returned tt;
       state := apply_setter (setLoading false)
                  (apply_setter (setItems (sortedData Date_getTime data)) st);
       world := w';
       trace := [Ev SelectItems (Success data)] |}.
Proof. intros Henv. cbn. rewrite Henv. reflexivity. Qed.
End RunFacts.

(** ** The assembled board *)

(** C1. After a successful fetch, the item list that [fetchItems] stores, and
    each category column filtered from it, are ranked: whenever [a] stands
    before [b], [a] has strictly more votes than [b], or as many votes and a
    creation time not earlier than that of [b]; an item without a [votes]
    field counts as having no votes.  The creation dates are those of rows
    the backend stamped: each [created_at] parses to a time value. *)
Theorem fetchItems_sort_invariant {W : Type}
    (env : forall R : Type, Request R -> W -> R * W)
    (Date_getTime : string -> Number) (st : AppState) (w w' : W)
    (data : option (list RetroItem.t)) :
  env _ SelectItems w = (Success data, w') ->
  valid_dates Date_getTime (default [] data) ->
  let board := items (state (run env (fetchItems Date_getTime) st w)) in
  (forall a b, precedes a b board -> ranked_before Date_getTime a b) /\
  (forall category a b,
     precedes a b (getItemsByCategory board category) ->
     ranked_before Date_getTime a b) /\
  (forall x, RetroItem.votes x = None -> voteCount x = 0%Z).
Proof.
  intros Henv Hvalid board. subst board.
  rewrite (run_fetchItems_success env Date_getTime st w w' data Henv). simpl.
  split; [|split].
  - intros a b. by apply sortedData_ranked.
  - intros category a b Hab. apply (sortedData_ranked Date_getTime data); [done|].
    by apply precedes_filter in Hab.
  - intros x Hx. unfold voteCount. by rewrite Hx.
Qed.

Lemma fetchItems_sort_invariant_witness :
  let data := Some (Db.select_items Sample.db0) in
  let board :=
    items (state (run server (fetchItems Sample.getTime) Sample.state0 Sample.world0)) in
  server _ SelectItems Sample.world0 = (Success data, Sample.world0) /\
  valid_dates Sample.getTime (default [] data) /\
  (forall a b, precedes a b board -> ranked_before Sample.getTime a b) /\
  (forall category a b,
     precedes a b (getItemsByCategory board category) ->
     ranked_before Sample.getTime a b) /\
  (forall x, RetroItem.votes x = None -> voteCount x = 0%Z).
Proof.
  intros data board.
  assert (Henv : server _ SelectItems Sample.world0 = (Success data, Sample.world0))
    by reflexivity.
  assert (Hvalid : valid_dates Sample.getTime (default [] data)).
  { repeat (constructor; [vm_compute; discriminate|]). constructor. }
  split; [exact Henv|]. split; [exact Hvalid|].
  exact (fetchItems_sort_invariant server Sample.getTime Sample.state0
           Sample.world0 Sample.world0 data Henv Hvalid).
Defined.

(** C2. [getItemsByCategory] partitions the items: an item is in the column
    of a category exactly when that is its category, the three columns
    together are a permutation of the items, and a category without items
    has the empty list as its column. *)
Theorem getItemsByCategory_partition (items : list RetroItem.t) :
  (forall x category,
     x ∈ getItemsByCategory items category <->
     x ∈ items /\ RetroItem.category x = category) /\
  (forall x c1 c2,
     x ∈ getItemsByCategory items c1 -> x ∈ getItemsByCategory items c2 -> c1 = c2) /\
  getItemsByCategory items good ++ getItemsByCategory items bad
    ++ getItemsByCategory items better ≡ₚ items /\
  (forall category,
     (forall x, x ∈ items -> RetroItem.category x ≠ category) <->
     getItemsByCategory items category = []).
Proof.
  unfold getItemsByCategory. split; [|split; [|split]].
  - intros x category. rewrite list_elem_of_filter. tauto.
  - intros x c1 c2 [H1 _]%list_elem_of_filter [H2 _]%list_elem_of_filter.
    congruence.
  - induction items as [|x l IH]; [done|].
    rewrite !filter_cons.
    destruct (RetroItem.category x); simpl;
      repeat case_decide; try done; simpl.
    + by rewrite IH.
    + rewrite <- Permutation_middle. by rewrite IH.
    + rewrite app_assoc, <- Permutation_middle, <- app_assoc. by rewrite IH.
  - intros category. split.
    + intros Hnone. induction items as [|x l IH]; [done|].
      rewrite filter_cons. case_decide as Hx.
      * exfalso. apply (Hnone x); [set_solver|done].
      * apply IH. intros y Hy. apply Hnone. set_solver.
    + intros Hnil x Hx Hc.
      by apply (filter_nil_not_elem_of _ _ x Hnil).
Qed.

Lemma getItemsByCategory_partition_witness :
  getItemsByCategory (items Sample.state0) better = [] /\
  RetroItem.id <$> getItemsByCategory (items Sample.state0) good = ["B"; "A"; "C"] /\
  RetroItem.id <$> getItemsByCategory (items Sample.state0) bad = ["D"] /\
  (forall x, x ∈ items Sample.state0 -> RetroItem.category x ≠ better).
Proof.
  split; [reflexivity|]. split; [reflexivity|]. split; [reflexivity|].
  apply (getItemsByCategory_partition (items Sample.state0)). reflexivity.
Defined.

(** C10. Without a signed-in user [hasUserVoted] is false for every item;
    with a user it is true exactly when one of the item's embedded votes
    carries the user's identifier. *)
Theorem hasUserVoted_spec (item : RetroItem.t) :
  hasUserVoted None item = Some false /\
  (forall u : User.t,
     hasUserVoted (Some u) item = Some true <->
     exists votes vote,
       RetroItem.votes item = Some votes /\ vote ∈ votes /\
       Vote.user_id vote = User.id u).
Proof.
  split; [done|]. intros u. unfold hasUserVoted.
  destruct (RetroItem.votes item) as [vs|].
  - split.
    + intros [= Hex]. apply existsb_exists in Hex as (vote & Hin & Hv).
      exists vs, vote. split; [done|]. split; [by apply list_elem_of_In|].
      by apply bool_decide_eq_true in Hv.
    + intros (vs' & vote & [= <-] & Hin & Hv). f_equal.
      apply existsb_exists. exists vote. split; [by apply list_elem_of_In|].
      by apply bool_decide_eq_true.
  - split; [done|]. by intros (? & ? & ? & _).
Qed.

(** ** The handlers against an arbitrary environment *)

Lemma trimStart_onlyWhiteSpace (s : string) :
  onlyWhiteSpace s = true -> trimStart s = "".
Proof.
  induction s as [|c s IH]; simpl; [done|].
  intros [Hc Hs]%andb_prop. rewrite Hc. auto.
Qed.

Lemma trim_onlyWhiteSpace (s : string) :
  onlyWhiteSpace s = true -> trim s = "".
Proof. intros Hs. unfold trim. by rewrite trimStart_onlyWhiteSpace. Qed.

Lemma errorMessage_message (e : JsError) (fb m : string) :
  message e = Some m -> m ≠ "" -> errorMessage e fb = m.
Proof.
  unfold errorMessage, or_else. intros -> Hm. by destruct m.
Qed.

Lemma errorMessage_nested (e : JsError) (fb m : string) :
  message e = None \/ message e = Some "" ->
  error_message e = Some m -> m ≠ "" -> errorMessage e fb = m.
Proof.
  unfold errorMessage, or_else. intros [->| ->] -> Hm; by destruct m.
Qed.

Lemma errorMessage_fallback (e : JsError) (fb : string) :
  message e = None \/ message e = Some "" ->
  error_message e = None \/ error_message e = Some "" ->
  errorMessage e fb = fb.
Proof. unfold errorMessage, or_else. by intros [->| ->] [->| ->]. Qed.

(** Case analysis on what a handler reads and on what its environment
    answers, one step at a time. *)
Ltac handler_step env :=
  match goal with
  | |- context [match user ?st with _ => _ end] => destruct (user st) eqn:?
  | |- context [truthy ?s] => destruct (truthy s) eqn:?
  | |- context [existingVote ?i ?k ?u] => destruct (existingVote i k u) eqn:?
  | |- context [newComments ?st !! ?k] => destruct (newComments st !! k) eqn:?
  | |- context [env (Response ?X) ?q ?w] =>
      destruct (env (Response X) q w) as [[?|?] ?] eqn:?
  | |- context [env unit ?q ?w] => destruct (env unit q w) as [[] ?] eqn:?
  | |- context [env bool ?q ?w] => destruct (env bool q w) as [[] ?] eqn:?
  end.

Ltac handler_cases env :=
  repeat (cbn -[errorMessage sortedData trim] in *; handler_step env);
  cbn -[errorMessage sortedData trim] in *.

Section AnyEnvironment.
Context {W : Type} (env : forall R : Type, Request R -> W -> R * W).
Variable Date_getTime : string -> Number.

(** [fetchItems] catches what it throws: a caller that does not await it
    misses nothing. *)
Lemma fetchItems_returns (st : AppState) (w : W) :
  outcome (run env (fetchItems Date_getTime) st w) = Returned tt.
Proof. by handler_cases env. Qed.

Lemma run_fetchItems_failure (st : AppState) (w w' : W) (e : JsError) :
  env _ SelectItems w = (Failure e, w') ->
  let res := run env (fetchItems Date_getTime) st w in
  outcome res = Returned tt /\
  state res = apply_setter (setLoading false) st /\
  trace res =
    [Ev SelectItems (Failure e);
     Ev (ConsoleError "Error fetching items:" (inl e)) tt;
     Ev (ConsoleError "Error details:" (inr (errorMessage e "Failed to load items."))) tt].
Proof. intros Henv. cbn -[errorMessage]. rewrite Henv. by handler_cases env. Qed.
End AnyEnvironment.

(** C4. When the guard of [addItem] or [addComment] fails -- the draft is
    empty once trimmed, or nobody is signed in -- the handler returns at
    once: it asks nothing of the backend (nor of anything else) and sets no
    state.  In particular a draft item made of white space only is a no-op. *)
Theorem guard_failure_is_noop {W : Type}
    (env : forall R : Type, Request R -> W -> R * W)
    (Date_getTime : string -> Number) (st : AppState) (w : W) :
  (forall category,
     trim (newItemContent st category) = "" \/ user st = None ->
     run env (addItem category st) st w = idle st w) /\
  (forall itemId,
     trim (commentDraft st itemId) = "" \/ user st = None ->
     run env (addComment Date_getTime itemId st) st w = idle st w) /\
  (forall category,
     onlyWhiteSpace (newItemContent st category) = true ->
     run env (addItem category st) st w = idle st w).
Proof.
  assert (Hadd : forall category,
     trim (newItemContent st category) = "" \/ user st = None ->
     run env (addItem category st) st w = idle st w).
  { intros category [Hblank|Hnobody]; unfold addItem.
    - by rewrite Hblank.
    - rewrite Hnobody. by destruct (truthy _). }
  split; [exact Hadd|]. split.
  - intros itemId [Hblank|Hnobody]; unfold addComment, commentDraft in *.
    + destruct (newComments st !! itemId) as [s|]; simpl in *; [|done].
      rewrite Hblank. by destruct (user st).
    + rewrite Hnobody. by destruct (trim <$> newComments st !! itemId).
  - intros category Hws. apply Hadd. left. by apply trim_onlyWhiteSpace.
Qed.

Lemma guard_failure_is_noop_witness :
  trim (newItemContent Sample.state0 bad) = "" /\
  onlyWhiteSpace (newItemContent Sample.state0 bad) = true /\
  trim (commentDraft Sample.state0 "B") = "" /\
  user Sample.signed_out = None /\
  run server (addItem bad Sample.state0) Sample.state0 Sample.world0
    = idle Sample.state0 Sample.world0 /\
  run server (addComment Sample.getTime "B" Sample.state0) Sample.state0 Sample.world0
    = idle Sample.state0 Sample.world0 /\
  run server (addItem good Sample.signed_out) Sample.signed_out Sample.world0
    = idle Sample.signed_out Sample.world0.
Proof.
  split; [reflexivity|]. split; [reflexivity|].
  split; [reflexivity|]. split; [reflexivity|].
  pose proof (guard_failure_is_noop server Sample.getTime Sample.state0 Sample.world0)
    as (Hitem & Hcomment & _).
  pose proof (guard_failure_is_noop server Sample.getTime Sample.signed_out Sample.world0)
    as (Hnobody & _ & _).
  split; [|split].
  - apply Hitem. left. reflexivity.
  - apply Hcomment. left. reflexivity.
  - apply Hnobody. right. reflexivity.
Defined.

(** C6. When the query of [fetchItems] fails, no sorted list is stored: the
    items of the view stay exactly as they were (only [loading] is reset),
    the error is written to the console twice, no alert is shown, and
    [fetchItems] returns normally. *)
Theorem fetch_failure_keeps_view {W : Type}
    (env : forall R : Type, Request R -> W -> R * W)
    (Date_getTime : string -> Number) (st : AppState) (w w' : W) (e : JsError) :
  env _ SelectItems w = (Failure e, w') ->
  let res := run env (fetchItems Date_getTime) st w in
  items (state res) = items st /\
  state res = apply_setter (setLoading false) st /\
  trace res =
    [Ev SelectItems (Failure e);
     Ev (ConsoleError "Error fetching items:" (inl e)) tt;
     Ev (ConsoleError "Error details:" (inr (errorMessage e "Failed to load items."))) tt] /\
  alerts (trace res) = [] /\
  outcome res = Returned tt.
Proof.
  intros Henv res.
  destruct (run_fetchItems_failure env Date_getTime st w w' e Henv)
    as (Hout & Hst & Htr).
  fold res in Hout, Hst, Htr. rewrite Hst, Htr. by repeat split.
Qed.

Lemma fetch_failure_keeps_view_witness :
  let w := Sample.failing Sample.network_down Sample.world0 in
  let res := run server (fetchItems Sample.getTime) Sample.state0 w in
  server _ SelectItems w = (Failure Sample.network_down, Sample.world0) /\
  items (state res) = items Sample.state0 /\
  alerts (trace res) = [].
Proof.
  intros w res.
  assert (Henv : server _ SelectItems w = (Failure Sample.network_down, Sample.world0))
    by reflexivity.
  split; [exact Henv|].
  pose proof (fetch_failure_keeps_view server Sample.getTime Sample.state0 w
                Sample.world0 Sample.network_down Henv) as (Hitems & _ & _ & Halerts & _).
  split; [exact Hitems|exact Halerts].
Defined.

(** C7. When the mutation of a handler fails, the handler does not reload,
    leaves the whole component state as it was (so the drafts typed in the
    item and comment boxes are kept), and shows one alert.  Its text is
    [error.message] when that is a non-empty string, else
    [error.error.message] when that is one, else the fallback text of the
    action.  Whatever the environment answers, no handler ends with an
    uncaught error. *)
Theorem mutation_failure_is_contained {W : Type}
    (env : forall R : Type, Request R -> W -> R * W)
    (Date_getTime : string -> Number) (a : Action) (st : AppState) (w : W) :
  let res := run env (handler Date_getTime a st) st w in
  outcome res = Returned tt /\
  (forall m e,
     m ∈ trace res -> is_mutation_call m = true -> call_error m = Some e ->
     select_calls (trace res) = [] /\
     state res = st /\
     alerts (trace res) = [errorMessage e (fallback a)] /\
     (forall s, message e = Some s -> s ≠ "" -> errorMessage e (fallback a) = s) /\
     (message e = None -> error_message e = None ->
      errorMessage e (fallback a) = fallback a)).
Proof.
  assert (Htext : forall e : JsError,
     (forall s, message e = Some s -> s ≠ "" -> errorMessage e (fallback a) = s) /\
     (message e = None -> error_message e = None ->
      errorMessage e (fallback a) = fallback a)).
  { intros e. split.
    - intros s. apply errorMessage_message.
    - intros. apply errorMessage_fallback; auto. }
  destruct a; unfold handler, addItem, toggleVote, addComment, deleteItem, deleteComment;
    handler_cases env; (split; [done|]); intros m e' Hin Hmut Herr;
    repeat (apply elem_of_cons in Hin as [->|Hin]; [simpl in Hmut, Herr; try done|]);
    try (by apply elem_of_nil in Hin);
    simplify_eq; (split; [done|]); (split; [done|]); (split; [done|]); apply Htext.
Qed.

Lemma mutation_failure_is_contained_witness :
  let w := Sample.failing Sample.opaque_error Sample.world0 in
  let res := run server (handler Sample.getTime (AddItem good) Sample.state0)
               Sample.state0 w in
  let m := Ev (InsertItem good "retro went well" "u-alice")
              (Failure Sample.opaque_error) in
  m ∈ trace res /\
  select_calls (trace res) = [] /\
  state res = Sample.state0 /\
  newItemContent (state res) good = "  retro went well " /\
  alerts (trace res) = ["Failed to add item. Please try again."].
Proof.
  intros w res m.
  assert (Hin : m ∈ trace res) by (vm_compute; apply list_elem_of_here).
  pose proof (mutation_failure_is_contained server Sample.getTime (AddItem good)
                Sample.state0 w) as (_ & Hfail).
  destruct (Hfail m Sample.opaque_error Hin eq_refl eq_refl)
    as (Hsel & Hst & Halert & _ & _).
  split; [exact Hin|]. split; [exact Hsel|]. split; [exact Hst|].
  split; [reflexivity|exact Halert].
Defined.

(** C3, as the code has it.  A handler issues at most one mutation, and
    exactly one when its guard passes and no confirmation is declined.  When
    the mutation of [toggleVote], [addComment], [deleteItem] or
    [deleteComment] succeeds, the only other backend call is the query of
    [fetchItems] that follows it, and the items of the view are the sorted
    answer of that query (or stay as they were when the query fails).
    [addItem] does not reload: after its insert succeeds it issues no other
    backend call, puts the returned row, with empty votes and comments, in
    front of the items it already has, and clears the draft of the category. *)
Theorem one_mutation_then_reload {W : Type}
    (env : forall R : Type, Request R -> W -> R * W)
    (Date_getTime : string -> Number) (a : Action) (st : AppState) (w : W) :
  let res := run env (handler Date_getTime a st) st w in
  (length (mutation_calls (trace res)) <= 1)%nat /\
  (ready a st = true -> existsb declined (trace res) = false ->
   length (mutation_calls (trace res)) = 1%nat) /\
  (forall m,
     m ∈ trace res -> is_mutation_call m = true -> succeeded m = true ->
     match a with
     | AddItem category =>
         exists u data,
           user st = Some u /\
           m = Ev (InsertItem category (trim (newItemContent st category)) (User.id u))
                  (Success data) /\
           backend_calls (trace res) = [m] /\
           items (state res) = RetroItem.with_empty_votes_and_comments data :: items st /\
           newItemContent (state res) = <[category := ""]> (newItemContent st)
     | _ =>
         exists r,
           backend_calls (trace res) = [m; Ev SelectItems r] /\
           items (state res) =
             match r with
             | Success data => sortedData Date_getTime data
             | Failure _ => items st
             end
     end).
Proof.
  destruct a; unfold handler, addItem, toggleVote, addComment, deleteItem, deleteComment,
    ready, commentDraft;
    handler_cases env; (split; [lia|]); (split; [try done|]).
  all: try (intros m Hin Hmut Hok;
    repeat (apply elem_of_cons in Hin as [->|Hin]; [simpl in Hmut, Hok; try done|]);
    try (by apply elem_of_nil in Hin); eauto 8).
  all: try (rewrite andb_false_r; done).
  all: try (intros [Hblank _]%andb_prop; vm_compute in Hblank; done).
Qed.

Lemma one_mutation_then_reload_witness :
  let res := run server (handler Sample.getTime (AddComment "A") Sample.state0)
               Sample.state0 Sample.world0 in
  let m := Ev (InsertComment "A" "u-alice" "agreed") (Success tt) in
  ready (AddComment "A") Sample.state0 = true /\
  existsb declined (trace res) = false /\
  m ∈ trace res /\
  length (mutation_calls (trace res)) = 1%nat /\
  exists r,
    backend_calls (trace res) = [m; Ev SelectItems r] /\
    items (state res) =
      match r with
      | Success data => sortedData Sample.getTime data
      | Failure _ => items Sample.state0
      end.
Proof.
  intros res m.
  assert (Hready : ready (AddComment "A") Sample.state0 = true) by reflexivity.
  assert (Hconf : existsb declined (trace res) = false) by reflexivity.
  assert (Hin : m ∈ trace res) by (vm_compute; apply list_elem_of_here).
  pose proof (one_mutation_then_reload server Sample.getTime (AddComment "A")
                Sample.state0 Sample.world0) as (_ & Hone & Hreload).
  split; [exact Hready|]. split; [exact Hconf|]. split; [exact Hin|].
  split; [exact (Hone Hready Hconf)|].
  exact (Hreload m Hin eq_refl eq_refl).
Defined.

(** [addItem] on the sample board: one insert, no query, and the new row in
    front of the items that were already shown, its draft cleared. *)
Example addItem_prepends :
  let res := run server (addItem good Sample.state0) Sample.state0 Sample.world0 in
  length (backend_calls (trace res)) = 1%nat /\
  select_calls (trace res) = [] /\
  RetroItem.id <$> items (state res) = ["gen-0"; "B"; "A"; "C"; "D"] /\
  newItemContent (state res) good = "".
Proof. repeat split. Qed.

(** C3, counterexample: the insert of [addItem] succeeds on the sample board
    and no query follows it. *)
Lemma addItem_does_not_reload : ~ every_handler_reloads Sample.getTime.
Proof.
  intros Hclaim.
  pose (res := run server (handler Sample.getTime (AddItem good) Sample.state0)
                 Sample.state0 Sample.world0).
  assert (exists m, trace res = [m] /\ is_mutation_call m = true /\ succeeded m = true)
    as (m & Htr & Hm & Hok).
  { eexists. split; [vm_compute; reflexivity|]. split; reflexivity. }
  apply (Hclaim (AddItem good) Sample.state0 Sample.world0 m); try done.
  fold res. rewrite Htr. apply list_elem_of_here.
Qed.

(** ** The handlers against the backend *)

Ltac server_step :=
  match goal with
  | |- context [match faults ?w with _ => _ end] =>
      destruct (faults w) as [|[?|] ?] eqn:?
  | |- context [match ?fs with [] => _ | _ :: _ => _ end] =>
      is_var fs; destruct fs as [|[?|] ?]
  end.

Ltac server_cases :=
  repeat (cbn -[errorMessage sortedData trim Db.select_items] in *;
          unfold backend_call in *; server_step);
  cbn -[errorMessage sortedData trim Db.select_items] in *.

Lemma run_fetchItems_db (Date_getTime : string -> Number) (st : AppState) (w : World) :
  db (world (run server (fetchItems Date_getTime) st w)) = db w.
Proof. by server_cases. Qed.

(** ** Toggling a vote *)

Lemma existingVote_Some (items : list RetroItem.t) (itemId : string) (u : User.t)
    (vote : Vote.t) :
  existingVote items itemId u = Some vote ->
  view_has_vote items itemId u /\ Vote.user_id vote = User.id u.
Proof.
  unfold existingVote, view_has_vote.
  destruct (find _ items) as [item|] eqn:Hitem; [|done].
  destruct (RetroItem.votes item) as [vs|] eqn:Hvs; [|done].
  intros Hvote.
  apply find_some in Hitem as [Hin Hid%bool_decide_eq_true].
  apply find_some in Hvote as [Hinv Hu%bool_decide_eq_true].
  split; [|done]. exists item, vs, vote.
  by rewrite !list_elem_of_In.
Qed.

Lemma NoDup_fmap_eq {A B : Type} (f : A -> B) (l : list A) (x y : A) :
  NoDup (f <$> l) -> x ∈ l -> y ∈ l -> f x = f y -> x = y.
Proof.
  induction l as [|z l IH]; simpl; [by intros _ ?%elem_of_nil|].
  rewrite NoDup_cons. intros [Hz Hl] Hx Hy Hf.
  apply elem_of_cons in Hx as [->|Hx]; apply elem_of_cons in Hy as [->|Hy]; auto.
  - destruct Hz. rewrite Hf. by apply list_elem_of_fmap_2.
  - destruct Hz. rewrite <- Hf. by apply list_elem_of_fmap_2.
Qed.

Lemma existingVote_None (items : list RetroItem.t) (itemId : string) (u : User.t) :
  NoDup (RetroItem.id <$> items) ->
  existingVote items itemId u = None ->
  ~ view_has_vote items itemId u.
Proof.
  intros Hids Hnone (item & vs & vote & Hin & Hid & Hvs & Hvote & Hu).
  unfold existingVote in Hnone.
  destruct (find _ items) as [item'|] eqn:Hitem.
  - apply find_some in Hitem as [Hin' Hid'%bool_decide_eq_true].
    apply list_elem_of_In in Hin'.
    assert (item' = item) as -> by (eapply NoDup_fmap_eq; eauto; congruence).
    rewrite Hvs in Hnone. apply list_elem_of_In in Hvote.
    apply (find_none _ _ Hnone vote) in Hvote.
    by apply bool_decide_eq_false in Hvote.
  - apply list_elem_of_In in Hin.
    apply (find_none _ _ Hitem item) in Hin.
    by apply bool_decide_eq_false in Hin.
Qed.

Lemma toggleVote_issues {W : Type} (env : forall R : Type, Request R -> W -> R * W)
    (Date_getTime : string -> Number) (itemId : string) (st : AppState) (w : W)
    (u : User.t) :
  user st = Some u ->
  exists r,
    mutation_calls (trace (run env (toggleVote Date_getTime itemId st) st w)) =
      [Ev match existingVote (items st) itemId u with
          | Some vote => DeleteVote (Vote.id vote)
          | None => InsertVote itemId (User.id u)
          end r].
Proof.
  intros Hu. unfold toggleVote. rewrite Hu.
  destruct (existingVote (items st) itemId u); handler_cases env; eauto.
Qed.

Lemma toggleVote_db (Date_getTime : string -> Number) (itemId : string)
    (st : AppState) (w : World) (u : User.t) :
  user st = Some u ->
  db (world (run server (toggleVote Date_getTime itemId st) st w)) =
    match faults w with
    | Some _ :: _ => db w
    | _ =>
        match existingVote (items st) itemId u with
        | Some vote => Db.delete_vote (Vote.id vote) (db w)
        | None => Db.insert_vote (new_vote_row w itemId (User.id u)) (db w)
        end
    end.
Proof.
  intros Hu. unfold toggleVote. rewrite Hu.
  destruct (existingVote (items st) itemId u); by server_cases.
Qed.

Lemma delete_vote_one_vote_per_user (id : string) (d : Db.t) :
  Db.one_vote_per_user d -> Db.one_vote_per_user (Db.delete_vote id d).
Proof.
  unfold Db.one_vote_per_user. simpl. intros Hd.
  eapply sublist_NoDup; [exact Hd|].
  apply fmap_sublist, sublist_filter.
Qed.

Lemma insert_vote_one_vote_per_user (v : Db.VoteRow) (d : Db.t) :
  ~ stored_vote d (Db.vote_retro_item_id v) (Db.vote_user_id v) ->
  Db.one_vote_per_user d -> Db.one_vote_per_user (Db.insert_vote v d).
Proof.
  unfold Db.one_vote_per_user, stored_vote. simpl. intros Hnew Hd.
  rewrite fmap_app. apply NoDup_app. split; [done|]. split.
  - intros k Hk ->%list_elem_of_singleton. done.
  - apply NoDup_singleton.
Qed.

(** C5, as the code has it.  A signed-in user's toggle issues exactly one
    mutation: when the view model yields a vote of this user on the item, it
    deletes the vote with that vote's identifier; otherwise it inserts a
    vote for this item and this user.  The toggle keeps "at most one vote
    per (item, user)" in the backend whenever the view is fresh: whenever
    the view shows no vote of the user on the item, the backend stores none. *)
Theorem toggleVote_mutation (Date_getTime : string -> Number) (itemId : string)
    (st : AppState) (w : World) (u : User.t) :
  user st = Some u ->
  let res := run server (toggleVote Date_getTime itemId st) st w in
  match existingVote (items st) itemId u with
  | Some vote =>
      view_has_vote (items st) itemId u /\
      Vote.user_id vote = User.id u /\
      exists r, mutation_calls (trace res) = [Ev (DeleteVote (Vote.id vote)) r]
  | None =>
      (NoDup (RetroItem.id <$> items st) -> ~ view_has_vote (items st) itemId u) /\
      exists r, mutation_calls (trace res) = [Ev (InsertVote itemId (User.id u)) r]
  end /\
  (view_is_fresh st w itemId u ->
   Db.one_vote_per_user (db w) -> Db.one_vote_per_user (db (world res))).
Proof.
  intros Hu res. subst res. split.
  - pose proof (toggleVote_issues server Date_getTime itemId st w u Hu) as Hm.
    destruct (existingVote (items st) itemId u) as [vote|] eqn:Hvote.
    + apply existingVote_Some in Hvote as [? ?]. auto.
    + split; [|done]. intros Hids. by apply existingVote_None.
  - intros Hfresh Hinv. rewrite (toggleVote_db _ _ _ _ u Hu).
    destruct (faults w) as [|[e|] fs]; try done;
      (destruct (existingVote (items st) itemId u) as [vote|] eqn:Hvote;
       [by apply delete_vote_one_vote_per_user
       |apply insert_vote_one_vote_per_user; [by apply Hfresh|done]]).
Qed.

Lemma toggleVote_mutation_witness :
  let res := run server (toggleVote Sample.getTime "A" Sample.state0)
               Sample.state0 Sample.world0 in
  user Sample.state0 = Some Sample.alice /\
  view_is_fresh Sample.state0 Sample.world0 "A" Sample.alice /\
  Db.one_vote_per_user (db Sample.world0) /\
  (exists r, mutation_calls (trace res) = [Ev (InsertVote "A" "u-alice") r]) /\
  Db.one_vote_per_user (db (world res)).
Proof.
  intros res.
  assert (Hu : user Sample.state0 = Some Sample.alice) by reflexivity.
  assert (Hfresh : view_is_fresh Sample.state0 Sample.world0 "A" Sample.alice).
  { intros _. unfold stored_vote. apply (bool_decide_unpack _). vm_compute. exact I. }
  assert (Hinv : Db.one_vote_per_user (db Sample.world0)).
  { unfold Db.one_vote_per_user. apply (bool_decide_unpack _). vm_compute. exact I. }
  assert (Hex : existingVote (items Sample.state0) "A" Sample.alice = None)
    by reflexivity.
  pose proof (toggleVote_mutation Sample.getTime "A" Sample.state0 Sample.world0
                Sample.alice Hu) as [Hm Hkeep].
  rewrite Hex in Hm. destruct Hm as [_ Hm].
  split; [exact Hu|]. split; [exact Hfresh|]. split; [exact Hinv|].
  split; [exact Hm|exact (Hkeep Hfresh Hinv)].
Defined.

(** Alice votes for A; the insert goes through but the reload fails, so the
    board still shows A without her vote.  She clicks again: the handler
    inserts a second vote instead of deleting the first. *)
Example second_click_after_failed_reload :
  let r1 := Sample.after_vote in
  let r2 := run server (toggleVote Sample.getTime "A" (state r1)) (state r1) (world r1) in
  alerts (trace r1) = [] /\
  items (state r1) = items Sample.state0 /\
  Db.votes_of (db (world r1)) "A" =
    [Sample.vote "v1" "A" "u-bob"; Sample.vote "v2" "A" "u-carol";
     Sample.vote "gen-0" "A" "u-alice"] /\
  Db.votes_of (db (world r2)) "A" =
    [Sample.vote "v1" "A" "u-bob"; Sample.vote "v2" "A" "u-carol";
     Sample.vote "gen-0" "A" "u-alice"; Sample.vote "gen-1" "A" "u-alice"].
Proof. repeat split. Qed.

(** C5, counterexample: on the view left stale by a failed reload, a toggle
    takes the backend from one vote per (item, user) to two votes of the
    same user on the same item. *)
Lemma stale_view_duplicates_vote : ~ toggle_keeps_one_vote_per_user Sample.getTime.
Proof.
  intros Hclaim.
  specialize (Hclaim "A" (state Sample.after_vote) (world Sample.after_vote)).
  assert (Hdup : ~ Db.one_vote_per_user
      (db (world (run server (toggleVote Sample.getTime "A" (state Sample.after_vote))
                    (state Sample.after_vote) (world Sample.after_vote))))).
  { unfold Db.one_vote_per_user. apply (bool_decide_unpack _). vm_compute. exact I. }
  apply Hdup, Hclaim.
  - by eexists.
  - unfold Db.one_vote_per_user. apply (bool_decide_unpack _). vm_compute. exact I.
Qed.

Lemma filter_all {A : Type} (P : A -> Prop) `{!forall x, Decision (P x)} (l : list A) :
  Forall P l -> filter P l = l.
Proof.
  induction 1 as [|x l Hx Hl IH]; [done|].
  by rewrite filter_cons_True, IH.
Qed.

Lemma find_app_skip {A : Type} (p : A -> bool) (l1 l2 : list A) :
  Forall (fun x => p x = false) l1 -> find p (l1 ++ l2) = find p l2.
Proof.
  induction 1 as [|x l1 Hx Hl IH]; simpl; [done|]. by rewrite Hx.
Qed.

Lemma delete_inserted_vote (v : Db.VoteRow) (d : Db.t) :
  Db.vote_id v ∉ Db.vote_id <$> Db.votes d ->
  Db.delete_vote (Db.vote_id v) (Db.insert_vote v d) = d.
Proof.
  intros Hfresh. destruct d as [its vs cs us]. unfold Db.delete_vote. simpl in *.
  f_equal. rewrite filter_app, filter_cons_False, filter_nil, app_nil_r by auto.
  apply filter_all, Forall_forall. intros v' Hv' Heq.
  apply Hfresh. rewrite <- Heq. by apply list_elem_of_fmap_2.
Qed.

Lemma votes_of_insert_vote (v : Db.VoteRow) (d : Db.t) :
  Db.votes_of (Db.insert_vote v d) (Db.vote_retro_item_id v) =
  Db.votes_of d (Db.vote_retro_item_id v) ++ [v].
Proof.
  unfold Db.votes_of. simpl. by rewrite filter_app, filter_cons_True.
Qed.

(** On the board reloaded after the insert of [v], the vote that the handler
    finds for the voter is [v]. *)
Lemma existingVote_after_insert (Date_getTime : string -> Number) (d : Db.t)
    (u : User.t) (v : Db.VoteRow) :
  (exists row, row ∈ Db.retro_items d /\ Db.item_id row = Db.vote_retro_item_id v) ->
  Db.vote_user_id v = User.id u ->
  ~ stored_vote d (Db.vote_retro_item_id v) (User.id u) ->
  existingVote
    (sortedData Date_getTime (Some (Db.select_items (Db.insert_vote v d))))
    (Db.vote_retro_item_id v) u
  = Some (Db.embed_vote (Db.insert_vote v d) v).
Proof.
  intros (row & Hrow & Hid) Hu Hnone. unfold existingVote.
  set (d1 := Db.insert_vote v d).
  destruct (find _ (sortedData _ _)) as [item|] eqn:Hitem.
  - apply find_some in Hitem as [Hin Hitem%bool_decide_eq_true].
    apply list_elem_of_In in Hin. rewrite sortedData_perm in Hin. simpl in Hin.
    apply list_elem_of_fmap in Hin as (row' & -> & Hrow'). simpl in *.
    rewrite Hitem. unfold d1 at 2. rewrite votes_of_insert_vote, fmap_app.
    rewrite find_app_skip.
    + simpl. by rewrite Hu, bool_decide_eq_true_2.
    + apply Forall_fmap, Forall_forall. intros v' Hv'. simpl.
      apply bool_decide_eq_false. intros Hv'u. apply Hnone.
      apply list_elem_of_filter in Hv' as [Hit Hv'].
      unfold stored_vote. apply list_elem_of_fmap. exists v'.
      split; [|done]. unfold Db.vote_key. by rewrite Hit, Hv'u.
  - assert (Hin : Db.join d1 row ∈ sortedData Date_getTime (Some (Db.select_items d1))).
    { rewrite sortedData_perm. simpl. by apply list_elem_of_fmap_2. }
    apply list_elem_of_In in Hin. apply (find_none _ _ Hitem) in Hin.
    apply bool_decide_eq_false in Hin. by destruct Hin.
Qed.

Lemma run_toggleVote_insert (Date_getTime : string -> Number) (itemId : string)
    (st : AppState) (w : World) (u : User.t) :
  user st = Some u -> faults w = [] ->
  existingVote (items st) itemId u = None ->
  let w1 := next_tick (with_db (Db.insert_vote (new_vote_row w itemId (User.id u))) w) in
  let data := Some (Db.select_items (db w1)) in
  run server (toggleVote Date_getTime itemId st) st w =
    {| outcome := Returned tt;
       state := apply_setter (setLoading false)
                  (apply_setter (setItems (sortedData Date_getTime data)) st);
       world := w1;
       trace := [Ev (InsertVote itemId (User.id u)) (Success tt);
                 Ev SelectItems (Success data)] |}.
Proof.
  intros Hu Hf Hex. unfold toggleVote. rewrite Hu, Hex.
  cbn -[sortedData Db.select_items]. unfold backend_call. rewrite Hf.
  cbn -[sortedData Db.select_items]. unfold backend_call. simpl faults. rewrite Hf.
  reflexivity.
Qed.

Lemma run_toggleVote_delete (Date_getTime : string -> Number) (itemId : string)
    (st : AppState) (w : World) (u : User.t) (vote : Vote.t) :
  user st = Some u -> faults w = [] ->
  existingVote (items st) itemId u = Some vote ->
  let w1 := with_db (Db.delete_vote (Vote.id vote)) w in
  let data := Some (Db.select_items (db w1)) in
  run server (toggleVote Date_getTime itemId st) st w =
    {| outcome := Returned tt;
       state := apply_setter (setLoading false)
                  (apply_setter (setItems (sortedData Date_getTime data)) st);
       world := w1;
       trace := [Ev (DeleteVote (Vote.id vote)) (Success tt);
                 Ev SelectItems (Success data)] |}.
Proof.
  intros Hu Hf Hex. unfold toggleVote. rewrite Hu, Hex.
  cbn -[sortedData Db.select_items]. unfold backend_call. rewrite Hf.
  cbn -[sortedData Db.select_items]. unfold backend_call. simpl faults. rewrite Hf.
  reflexivity.
Qed.

(** C9, as the code has it.  A signed-in user who has no vote on an item,
    in the backend and on the board, toggles twice, every call succeeding
    and the second toggle running on the board reloaded by the first.  The
    first toggle inserts a vote, the second deletes exactly that vote by its
    identifier, and the backend's tables -- hence the votes attached to the
    item, row for row -- are what they were before; the board ends as a
    fetch of those tables.  The proviso on the backend is needed: see the
    counterexample below. *)
Theorem toggleVote_round_trip (Date_getTime : string -> Number) (itemId : string)
    (st : AppState) (w : World) (u : User.t) :
  user st = Some u ->
  existingVote (items st) itemId u = None ->
  ~ stored_vote (db w) itemId (User.id u) ->
  (exists row, row ∈ Db.retro_items (db w) /\ Db.item_id row = itemId) ->
  uuid w (tick w) ∉ (Db.vote_id <$> Db.votes (db w)) ->
  faults w = [] ->
  let r1 := run server (toggleVote Date_getTime itemId st) st w in
  let r2 := run server (toggleVote Date_getTime itemId (state r1)) (state r1) (world r1) in
  mutation_calls (trace r1) = [Ev (InsertVote itemId (User.id u)) (Success tt)] /\
  Db.votes_of (db (world r1)) itemId =
    Db.votes_of (db w) itemId ++ [new_vote_row w itemId (User.id u)] /\
  mutation_calls (trace r2) = [Ev (DeleteVote (uuid w (tick w))) (Success tt)] /\
  db (world r2) = db w /\
  Db.votes_of (db (world r2)) itemId = Db.votes_of (db w) itemId /\
  items (state r2) = sortedData Date_getTime (Some (Db.select_items (db w))).
Proof.
  intros Hu Hview Hstored Hrow Hfresh Hf r1 r2.
  set (v := new_vote_row w itemId (User.id u)).
  assert (Hr1 := run_toggleVote_insert Date_getTime itemId st w u Hu Hf Hview).
  cbv zeta in Hr1. fold v in Hr1. fold r1 in Hr1.
  assert (Hex2 : existingVote (items (state r1)) itemId u
                 = Some (Db.embed_vote (Db.insert_vote v (db w)) v)).
  { rewrite Hr1. simpl.
    apply (existingVote_after_insert Date_getTime (db w) u v); done. }
  assert (Hu1 : user (state r1) = Some u) by (rewrite Hr1; exact Hu).
  assert (Hf1 : faults (world r1) = []) by (rewrite Hr1; exact Hf).
  assert (Hr2 := run_toggleVote_delete Date_getTime itemId (state r1) (world r1) u _
                   Hu1 Hf1 Hex2).
  cbv zeta in Hr2. fold r2 in Hr2.
  assert (Hdb : db (world r2) = db w).
  { rewrite Hr2, Hr1. simpl. by apply (delete_inserted_vote v). }
  split; [by rewrite Hr1|]. split.
  { rewrite Hr1. simpl. apply (votes_of_insert_vote v). }
  split; [by rewrite Hr2|]. split; [done|]. split; [by rewrite Hdb|].
  rewrite Hr2. simpl. rewrite Hr1. simpl. by rewrite (delete_inserted_vote v).
Qed.

Lemma toggleVote_round_trip_witness :
  let st := Sample.state0 in
  let w := Sample.world0 in
  let r1 := run server (toggleVote Sample.getTime "A" st) st w in
  let r2 := run server (toggleVote Sample.getTime "A" (state r1)) (state r1) (world r1) in
  user st = Some Sample.alice /\
  existingVote (items st) "A" Sample.alice = None /\
  ~ stored_vote (db w) "A" "u-alice" /\
  (exists row, row ∈ Db.retro_items (db w) /\ Db.item_id row = "A") /\
  (uuid w (tick w) ∉ (Db.vote_id <$> Db.votes (db w))) /\
  faults w = [] /\
  Db.votes_of (db (world r1)) "A" =
    Db.votes_of (db w) "A" ++ [Sample.vote "gen-0" "A" "u-alice"] /\
  db (world r2) = db w /\
  Db.votes_of (db (world r2)) "A" = Db.votes_of (db w) "A".
Proof.
  intros st w r1 r2.
  assert (Hu : user st = Some Sample.alice) by reflexivity.
  assert (Hview : existingVote (items st) "A" Sample.alice = None) by reflexivity.
  assert (Hstored : ~ stored_vote (db w) "A" (User.id Sample.alice)).
  { unfold stored_vote. apply (bool_decide_unpack _). vm_compute. exact I. }
  assert (Hrow : exists row, row ∈ Db.retro_items (db w) /\ Db.item_id row = "A").
  { exists Sample.rowA. split; [apply list_elem_of_here|reflexivity]. }
  assert (Hfresh : uuid w (tick w) ∉ (Db.vote_id <$> Db.votes (db w))).
  { apply (bool_decide_unpack _). vm_compute. exact I. }
  assert (Hf : faults w = []) by reflexivity.
  pose proof (toggleVote_round_trip Sample.getTime "A" st w Sample.alice
                Hu Hview Hstored Hrow Hfresh Hf) as (_ & H1 & _ & H2 & H3 & _).
  split; [exact Hu|]. split; [exact Hview|]. split; [exact Hstored|].
  split; [exact Hrow|]. split; [exact Hfresh|]. split; [exact Hf|].
  split; [exact H1|]. split; [exact H2|exact H3].
Defined.

(** The round trip started on the board left stale by a failed reload: the
    backend already holds Alice's vote [gen-0] on A, the board does not show
    it.  The first toggle inserts [gen-1]; the reloaded board lists [gen-0]
    first, so the second toggle deletes [gen-0].  The item has as many
    votes as before, but not the same ones. *)
Example round_trip_from_stale_board :
  let r0 := Sample.after_vote in
  let r1 := run server (toggleVote Sample.getTime "A" (state r0)) (state r0) (world r0) in
  let r2 := run server (toggleVote Sample.getTime "A" (state r1)) (state r1) (world r1) in
  existingVote (items (state r0)) "A" Sample.alice = None /\
  Db.vote_id <$> Db.votes_of (db (world r0)) "A" = ["v1"; "v2"; "gen-0"] /\
  (exists r, mutation_calls (trace r1) = [Ev (InsertVote "A" "u-alice") r]) /\
  Db.vote_id <$> Db.votes_of (db (world r1)) "A" = ["v1"; "v2"; "gen-0"; "gen-1"] /\
  (exists r, mutation_calls (trace r2) = [Ev (DeleteVote "gen-0") r]) /\
  Db.vote_id <$> Db.votes_of (db (world r2)) "A" = ["v1"; "v2"; "gen-1"].
Proof. repeat split; by eexists. Qed.

(** C9, counterexample: from the board left stale by a failed reload, voting
    then un-voting, every call succeeding, leaves the item with a vote it
    did not have and without one it had. *)
Lemma round_trip_fails_on_stale_view : ~ toggle_twice_restores_votes Sample.getTime.
Proof.
  intros Hclaim.
  specialize (Hclaim "A" (state Sample.after_vote) (world Sample.after_vote)
                Sample.alice).
  cbv zeta in Hclaim.
  assert (Hvotes :
    Db.votes_of
      (db (world
         (run server
            (toggleVote Sample.getTime "A"
               (state (run server
                  (toggleVote Sample.getTime "A" (state Sample.after_vote))
                  (state Sample.after_vote) (world Sample.after_vote))))
            (state (run server
               (toggleVote Sample.getTime "A" (state Sample.after_vote))
               (state Sample.after_vote) (world Sample.after_vote)))
            (world (run server
               (toggleVote Sample.getTime "A" (state Sample.after_vote))
               (state Sample.after_vote) (world Sample.after_vote)))))) "A"
    = Db.votes_of (db (world Sample.after_vote)) "A").
  { apply Hclaim; try reflexivity.
    - exists Sample.rowA. split; [apply list_elem_of_here|reflexivity].
    - apply (bool_decide_unpack _). vm_compute. exact I. }
  vm_compute in Hvotes. discriminate Hvotes.
Qed.

(** ** Assembly as a function of the fetched rows *)

Lemma StronglySorted_filter {A : Type} (R : relation A) (P : A -> Prop)
    `{!forall x, Decision (P x)} (l : list A) :
  StronglySorted R l -> StronglySorted R (filter P l).
Proof.
  induction 1 as [|x l Hl IH Hx]; [constructor|].
  rewrite filter_cons. case_decide; [|done].
  constructor; [done|]. rewrite Forall_forall in Hx |- *.
  intros y [_ Hy]%list_elem_of_filter. auto.
Qed.

Lemma getItemsByCategory_twice (items : list RetroItem.t) (c c' : Category) :
  getItemsByCategory (getItemsByCategory items c) c' =
    if decide (c = c') then getItemsByCategory items c else [].
Proof.
  unfold getItemsByCategory. induction items as [|x l IH].
  - by case_decide.
  - destruct (decide (RetroItem.category x = c)) as [Hx|Hx].
    + rewrite (filter_cons_True _ x l Hx), filter_cons, IH.
      repeat case_decide; congruence.
    + by rewrite (filter_cons_False _ x l Hx).
Qed.

(** C8. The board is a function of the fetched rows alone: two fetches that
    receive the same rows store the same list and show the same columns,
    whatever the component state and the environment.  Assembling again
    what was assembled changes nothing: a column of a column is that column
    (or empty, for another category), and for rows whose dates parse,
    sorting the sorted list or a column of it gives it back. *)
Theorem assembly_is_pure_and_idempotent {W1 W2 : Type}
    (env1 : forall R : Type, Request R -> W1 -> R * W1)
    (env2 : forall R : Type, Request R -> W2 -> R * W2)
    (Date_getTime : string -> Number) (st1 st2 : AppState)
    (w1 w1' : W1) (w2 w2' : W2) (data : option (list RetroItem.t)) :
  env1 _ SelectItems w1 = (Success data, w1') ->
  env2 _ SelectItems w2 = (Success data, w2') ->
  let board1 := items (state (run env1 (fetchItems Date_getTime) st1 w1)) in
  let board2 := items (state (run env2 (fetchItems Date_getTime) st2 w2)) in
  board1 = board2 /\
  (forall c, getItemsByCategory board1 c = getItemsByCategory board2 c) /\
  (forall c c',
     getItemsByCategory (getItemsByCategory board1 c) c'
     = if decide (c = c') then getItemsByCategory board1 c else []) /\
  (valid_dates Date_getTime (default [] data) ->
   sortedData Date_getTime (Some board1) = board1 /\
   forall c c',
     getItemsByCategory
       (sortedData Date_getTime (Some (getItemsByCategory board1 c))) c'
     = if decide (c = c') then getItemsByCategory board1 c else []).
Proof.
  intros Henv1 Henv2 board1 board2. subst board1 board2.
  rewrite (run_fetchItems_success env1 Date_getTime st1 w1 w1' data Henv1).
  rewrite (run_fetchItems_success env2 Date_getTime st2 w2 w2' data Henv2).
  simpl. split; [done|]. split; [done|]. split.
  - intros c c'. apply getItemsByCategory_twice.
  - intros Hvalid. split; [apply sortedData_idempotent|].
    intros c c'. rewrite <- getItemsByCategory_twice. f_equal.
    apply Array_sort_sorted_id, StronglySorted_Sorted, StronglySorted_filter.
    by apply sortedData_StronglySorted.
Qed.

Lemma assembly_is_pure_and_idempotent_witness :
  let data := Some (Db.select_items Sample.db0) in
  let board1 :=
    items (state (run server (fetchItems Sample.getTime) Sample.state0 Sample.world0)) in
  let board2 :=
    items (state (run server (fetchItems Sample.getTime) Sample.signed_out
                    (with_confirms [true] Sample.world0))) in
  server _ SelectItems Sample.world0 = (Success data, Sample.world0) /\
  server _ SelectItems (with_confirms [true] Sample.world0)
    = (Success data, with_confirms [true] Sample.world0) /\
  valid_dates Sample.getTime (default [] data) /\
  board1 = board2 /\
  sortedData Sample.getTime (Some board1) = board1.
Proof.
  intros data board1 board2.
  assert (H1 : server _ SelectItems Sample.world0 = (Success data, Sample.world0))
    by reflexivity.
  assert (H2 : server _ SelectItems (with_confirms [true] Sample.world0)
               = (Success data, with_confirms [true] Sample.world0)) by reflexivity.
  assert (Hvalid : valid_dates Sample.getTime (default [] data)).
  { repeat (constructor; [vm_compute; discriminate|]). constructor. }
  pose proof (assembly_is_pure_and_idempotent server server Sample.getTime
                Sample.state0 Sample.signed_out _ _ _ _ data H1 H2)
    as (Hsame & _ & _ & Hidem).
  split; [exact H1|]. split; [exact H2|]. split; [exact Hvalid|].
  split; [exact Hsame|exact (proj1 (Hidem Hvalid))].
Defined.

(** * Further properties of the component *)

(** ** Guards and confirmations *)

(** X1. Signed out, none of the five handlers does anything: each returns at
    once without a prompt, a backend call, an alert or a state change. *)
Theorem signed_out_handlers_do_nothing {W : Type}
    (env : forall R : Type, Request R -> W -> R * W)
    (Date_getTime : string -> Number) (a : Action) (st : AppState) (w : W) :
  user st = None ->
  run env (handler Date_getTime a st) st w = idle st w.
Proof.
  intros Hnobody.
  destruct a; unfold handler, addItem, toggleVote, addComment, deleteItem, deleteComment;
    rewrite Hnobody; try done.
  - by destruct (truthy _).
  - by destruct (trim <$> newComments st !! itemId).
Qed.

Lemma signed_out_handlers_do_nothing_witness :
  user Sample.signed_out = None /\
  run server (handler Sample.getTime (ToggleVote "A") Sample.signed_out)
    Sample.signed_out Sample.world0 = idle Sample.signed_out Sample.world0 /\
  run server (handler Sample.getTime (DeleteItemOf "A") Sample.signed_out)
    Sample.signed_out (with_confirms [true] Sample.world0)
  = idle Sample.signed_out (with_confirms [true] Sample.world0).
Proof.
  assert (Hnobody : user Sample.signed_out = None) by reflexivity.
  split; [exact Hnobody|]. split.
  - exact (signed_out_handlers_do_nothing server Sample.getTime (ToggleVote "A")
             Sample.signed_out Sample.world0 Hnobody).
  - exact (signed_out_handlers_do_nothing server Sample.getTime (DeleteItemOf "A")
             Sample.signed_out (with_confirms [true] Sample.world0) Hnobody).
Defined.

(** X2. When the user dismisses the confirmation of [deleteItem] or
    [deleteComment], the prompt is the only thing that happened: no backend
    call, no alert, and the component state is untouched. *)
Theorem declined_confirmation_aborts {W : Type}
    (env : forall R : Type, Request R -> W -> R * W)
    (Date_getTime : string -> Number) (a : Action) (st : AppState) (w : W) :
  (exists id, a = DeleteItemOf id \/ a = DeleteCommentOf id) ->
  let res := run env (handler Date_getTime a st) st w in
  existsb declined (trace res) = true ->
  (exists message, trace res = [Ev (Confirm message) false]) /\
  backend_calls (trace res) = [] /\
  alerts (trace res) = [] /\
  state res = st /\
  outcome res = Returned tt.
Proof.
  intros (id & [-> | ->]); unfold handler, deleteItem, deleteComment;
    handler_cases env; intros Hdeclined; try done; eauto 10.
Qed.

Lemma declined_confirmation_aborts_witness :
  let w := with_confirms [false] Sample.world0 in
  let res := run server (handler Sample.getTime (DeleteItemOf "A") Sample.state0)
               Sample.state0 w in
  existsb declined (trace res) = true /\
  backend_calls (trace res) = [] /\
  state res = Sample.state0 /\
  db (world res) = Sample.db0.
Proof.
  intros w res.
  assert (Hdeclined : existsb declined (trace res) = true) by reflexivity.
  pose proof (declined_confirmation_aborts server Sample.getTime (DeleteItemOf "A")
                Sample.state0 w (ex_intro _ "A" (or_introl eq_refl)) Hdeclined)
    as (_ & Hcalls & _ & Hst & _).
  split; [exact Hdeclined|]. split; [exact Hcalls|]. split; [exact Hst|reflexivity].
Defined.

(** X3. [deleteItem] and [deleteComment] take an identifier and nothing
    else: once a signed-in user has confirmed, the handler sends the delete
    for that identifier whatever the board holds -- it does not look
    whether the row is on the board or belongs to the user. *)
Theorem delete_handlers_send_the_id {W : Type}
    (env : forall R : Type, Request R -> W -> R * W)
    (Date_getTime : string -> Number) (id : string) (st : AppState) (w : W) :
  is_Some (user st) ->
  let item := run env (deleteItem Date_getTime id st) st w in
  let comment := run env (deleteComment Date_getTime id st) st w in
  (existsb declined (trace item) = false ->
   exists r, mutation_calls (trace item) = [Ev (DeleteItem id) r]) /\
  (existsb declined (trace comment) = false ->
   exists r, mutation_calls (trace comment) = [Ev (DeleteComment id) r]).
Proof.
  intros [u Hu]. unfold deleteItem, deleteComment. rewrite Hu.
  split; handler_cases env; intros Hdeclined; try done; eauto.
Qed.

Lemma delete_handlers_send_the_id_witness :
  let w := with_confirms [true] Sample.world0 in
  let res := run server (deleteItem Sample.getTime "not-on-the-board" Sample.state0)
               Sample.state0 w in
  is_Some (user Sample.state0) /\
  existsb declined (trace res) = false /\
  exists r, mutation_calls (trace res) = [Ev (DeleteItem "not-on-the-board") r].
Proof.
  intros w res.
  assert (Hu : is_Some (user Sample.state0)) by (eexists; reflexivity).
  assert (Hok : existsb declined (trace res) = false) by reflexivity.
  split; [exact Hu|]. split; [exact Hok|].
  exact (proj1 (delete_handlers_send_the_id server Sample.getTime "not-on-the-board"
                  Sample.state0 w Hu) Hok).
Defined.

(** ** Alerts and the console *)

Lemma errorMessage_nonempty (e : JsError) (fb : string) :
  fb ≠ "" -> errorMessage e fb ≠ "".
Proof.
  unfold errorMessage, or_else. intros Hfb.
  destruct (message e) as [[|? ?]|], (error_message e) as [[|? ?]|]; simpl; done.
Qed.

Lemma fallback_nonempty (a : Action) : fallback a ≠ "".
Proof. by destruct a. Qed.

(** The failed call that an alert reports. *)
Ltac pick_failure :=
  match goal with
  | |- context [Ev ?q (Failure ?e)] =>
      exists (Ev q (Failure e)), e; split;
      [repeat first [apply list_elem_of_here | apply list_elem_of_further]|done]
  end.

(** X4. A handler shows at most one alert, and only for a failed mutation:
    the text is the message of that failure and is never empty.  A reload
    that fails after a successful mutation is silent. *)
Theorem alerts_only_for_failed_mutations {W : Type}
    (env : forall R : Type, Request R -> W -> R * W)
    (Date_getTime : string -> Number) (a : Action) (st : AppState) (w : W) :
  let res := run env (handler Date_getTime a st) st w in
  (length (alerts (trace res)) <= 1)%nat /\
  (forall text, text ∈ alerts (trace res) ->
     text ≠ "" /\
     exists m e,
       m ∈ trace res /\ is_mutation_call m = true /\ call_error m = Some e /\
       text = errorMessage e (fallback a)) /\
  (forall s e,
     s ∈ trace res -> is_select_call s = true -> call_error s = Some e ->
     alerts (trace res) = []).
Proof.
  pose proof (fallback_nonempty a) as Hfb.
  destruct a; unfold handler, addItem, toggleVote, addComment, deleteItem, deleteComment;
    handler_cases env; (split; [lia|]); split.
  all: try (intros text Htext; apply elem_of_nil in Htext; done).
  all: try (intros ? ? Hin Hsel Herr;
    repeat (apply elem_of_cons in Hin as [->|Hin]; [simpl in Hsel, Herr; try done|]);
    by apply elem_of_nil in Hin).
  all: intros text Htext; apply list_elem_of_singleton in Htext as ->;
    (split; [by apply errorMessage_nonempty|]); pick_failure.
Qed.

Lemma alerts_only_for_failed_mutations_witness :
  let w := with_faults [None; Some Sample.network_down] Sample.world0 in
  let res := run server (handler Sample.getTime (AddComment "A") Sample.state0)
               Sample.state0 w in
  let s := Ev SelectItems (Failure Sample.network_down) in
  s ∈ trace res /\
  alerts (trace res) = [] /\
  newComments (state res) !! "A" = Some "".
Proof.
  intros w res s.
  assert (Hin : s ∈ trace res)
    by (vm_compute; apply list_elem_of_further, list_elem_of_here).
  pose proof (alerts_only_for_failed_mutations server Sample.getTime
                (AddComment "A") Sample.state0 w) as (_ & _ & Hsilent).
  split; [exact Hin|].
  split; [exact (Hsilent s Sample.network_down Hin eq_refl eq_refl)|reflexivity].
Defined.

(** X5. No failure goes unlogged: whenever a backend call of a handler
    fails, mutation or reload, the handler writes that error to the console. *)
Theorem backend_failures_are_logged {W : Type}
    (env : forall R : Type, Request R -> W -> R * W)
    (Date_getTime : string -> Number) (a : Action) (st : AppState) (w : W) :
  let res := run env (handler Date_getTime a st) st w in
  forall c e,
    c ∈ trace res -> is_backend_call c = true -> call_error c = Some e ->
    exists label, Ev (ConsoleError label (inl e)) tt ∈ trace res.
Proof.
  destruct a; unfold handler, addItem, toggleVote, addComment, deleteItem, deleteComment;
    handler_cases env; intros ? ? Hin Hcall Herr;
    repeat (apply elem_of_cons in Hin as [->|Hin]; [simpl in Hcall, Herr; try done|]);
    try (by apply elem_of_nil in Hin);
    simplify_eq; eexists;
    repeat first [apply list_elem_of_here | apply list_elem_of_further].
Qed.

Lemma backend_failures_are_logged_witness :
  let w := with_faults [None; Some Sample.network_down] Sample.world0 in
  let res := run server (handler Sample.getTime (ToggleVote "A") Sample.state0)
               Sample.state0 w in
  let s := Ev SelectItems (Failure Sample.network_down) in
  s ∈ trace res /\
  exists label, Ev (ConsoleError label (inl Sample.network_down)) tt ∈ trace res.
Proof.
  intros w res s.
  assert (Hin : s ∈ trace res)
    by (vm_compute; apply list_elem_of_further, list_elem_of_here).
  split; [exact Hin|].
  exact (backend_failures_are_logged server Sample.getTime (ToggleVote "A")
           Sample.state0 w s Sample.network_down Hin eq_refl eq_refl).
Defined.

(** ** What a handler leaves alone *)

(** X6. Drafts are only ever cleared by the handler that submitted them:
    a run of a handler keeps [user], [isLoaded] and [showComments], keeps
    the draft of every category except the one [addItem] was called for, and
    keeps the comment draft of every item except the one [addComment] was
    called for.  [loading] changes only when the run reloads, and is then
    false at the end. *)
Theorem handlers_keep_other_drafts {W : Type}
    (env : forall R : Type, Request R -> W -> R * W)
    (Date_getTime : string -> Number) (a : Action) (st : AppState) (w : W) :
  let res := run env (handler Date_getTime a st) st w in
  user (state res) = user st /\
  isLoaded (state res) = isLoaded st /\
  showComments (state res) = showComments st /\
  (forall category, a ≠ AddItem category ->
     newItemContent (state res) category = newItemContent st category) /\
  (forall itemId, a ≠ AddComment itemId ->
     newComments (state res) !! itemId = newComments st !! itemId) /\
  loading (state res) =
    match select_calls (trace res) with
    | [] => loading st
    | _ :: _ => false
    end.
Proof.
  destruct a; unfold handler, addItem, toggleVote, addComment, deleteItem, deleteComment;
    handler_cases env; split_and!; try done.
  all: intros ? Hne;
    first [apply fn_lookup_insert_ne | apply lookup_insert_ne]; congruence.
Qed.

Lemma handlers_keep_other_drafts_witness :
  let res := run server (handler Sample.getTime (AddItem good) Sample.state0)
               Sample.state0 Sample.world0 in
  bad ≠ good /\
  newItemContent (state res) good = "" /\
  newItemContent (state res) bad = "   " /\
  newComments (state res) !! "A" = Some "agreed".
Proof.
  intros res.
  pose proof (handlers_keep_other_drafts server Sample.getTime (AddItem good)
                Sample.state0 Sample.world0) as (_ & _ & _ & Hitems & Hcomments & _).
  assert (Hne : AddItem good ≠ AddItem bad) by discriminate.
  assert (Hne' : AddItem good ≠ AddComment "A") by discriminate.
  split; [discriminate|]. split; [reflexivity|].
  split; [exact (Hitems bad Hne)|exact (Hcomments "A" Hne')].
Defined.

(** X7. [fetchItems] only reads: whatever the backend answers, it issues
    the one query and no mutation, shows no alert, returns normally, ends
    with [loading] false, and changes no cell other than [items] and
    [loading]. *)
Theorem fetchItems_only_reads {W : Type}
    (env : forall R : Type, Request R -> W -> R * W)
    (Date_getTime : string -> Number) (st : AppState) (w : W) :
  let res := run env (fetchItems Date_getTime) st w in
  (exists r, backend_calls (trace res) = [Ev SelectItems r]) /\
  mutation_calls (trace res) = [] /\
  alerts (trace res) = [] /\
  outcome res = Returned tt /\
  loading (state res) = false /\
  same_inputs st (state res).
Proof.
  handler_cases env; unfold same_inputs; split_and!; eauto.
Qed.

(** ** White space around a draft *)

Lemma append_cons (a : ascii) (s t : string) :
  String a s +:+ t = String a (s +:+ t).
Proof. reflexivity. Qed.

Lemma append_nil_l (s : string) : "" +:+ s = s.
Proof. reflexivity. Qed.

Lemma append_nil_r (s : string) : s +:+ "" = s.
Proof. induction s as [|a s IH]; [done|]. by rewrite append_cons, IH. Qed.

Lemma append_assoc (s1 s2 s3 : string) : (s1 +:+ s2) +:+ s3 = s1 +:+ s2 +:+ s3.
Proof.
  induction s1 as [|a s1 IH]; [done|]. by rewrite !append_cons, IH.
Qed.

Lemma rev_app_append (s1 s2 : string) :
  String.rev_app s1 s2 = String.rev s1 +:+ s2.
Proof.
  unfold String.rev. revert s2.
  induction s1 as [|a s1 IH]; intros s2; simpl; [done|].
  by rewrite IH, (IH (String a "")), append_assoc.
Qed.

Lemma rev_cons (a : ascii) (s : string) :
  String.rev (String a s) = String.rev s +:+ String a "".
Proof. unfold String.rev at 1. simpl. apply rev_app_append. Qed.

Lemma rev_append (s1 s2 : string) :
  String.rev (s1 +:+ s2) = String.rev s2 +:+ String.rev s1.
Proof.
  induction s1 as [|a s1 IH].
  - by rewrite append_nil_l, append_nil_r.
  - by rewrite append_cons, !rev_cons, IH, append_assoc.
Qed.

Lemma rev_involutive (s : string) : String.rev (String.rev s) = s.
Proof.
  induction s as [|a s IH]; [done|].
  by rewrite rev_cons, rev_append, IH.
Qed.

Lemma onlyWhiteSpace_append (s1 s2 : string) :
  onlyWhiteSpace (s1 +:+ s2) = onlyWhiteSpace s1 && onlyWhiteSpace s2.
Proof.
  induction s1 as [|a s1 IH]; [done|].
  rewrite append_cons. simpl. by rewrite IH, andb_assoc.
Qed.

Lemma onlyWhiteSpace_rev (s : string) :
  onlyWhiteSpace (String.rev s) = onlyWhiteSpace s.
Proof.
  induction s as [|a s IH]; [done|].
  rewrite rev_cons, onlyWhiteSpace_append, IH. simpl.
  by rewrite andb_true_r, andb_comm.
Qed.

Lemma trimStart_cut (s : string) :
  exists pre,
    s = pre +:+ trimStart s /\ onlyWhiteSpace pre = true /\
    starts_clean (trimStart s).
Proof.
  induction s as [|a s (pre & Hs & Hpre & Hclean)]; simpl.
  - by exists "".
  - destruct (isWhiteSpace a) eqn:Ha.
    + exists (String a pre). rewrite append_cons, <- Hs. simpl.
      by rewrite Ha, Hpre.
    + exists "". by rewrite append_nil_l.
Qed.

Lemma trimEnd_cut (s : string) :
  exists post,
    s = trimEnd s +:+ post /\ onlyWhiteSpace post = true /\
    starts_clean (String.rev (trimEnd s)).
Proof.
  destruct (trimStart_cut (String.rev s)) as (pre & Hs & Hpre & Hclean).
  exists (String.rev pre). unfold trimEnd. split; [|split].
  - rewrite <- rev_append, <- Hs. by rewrite rev_involutive.
  - by rewrite onlyWhiteSpace_rev.
  - by rewrite rev_involutive.
Qed.

Lemma trim_stripped (s : string) : stripped s (trim s).
Proof.
  destruct (trimStart_cut s) as (pre & Hs & Hpre & Hclean).
  destruct (trimEnd_cut (trimStart s)) as (post & Ht & Hpost & Hclean').
  exists pre, post. fold (trim s) in Ht, Hclean'.
  split; [by rewrite <- Ht|]. split; [done|]. split; [done|]. split; [|done].
  rewrite Ht in Hclean. by destruct (trim s).
Qed.

Lemma truthy_nonempty (s : string) : truthy s = true <-> s ≠ "".
Proof. by destruct s. Qed.

(** X8. With a signed-in user and an enabled button, [addItem] and
    [addComment] send one insert whose content is the draft without the
    white space around it: never empty, never starting or ending with
    white space, the text in between untouched; it is attributed to the
    signed-in user. *)
Theorem submitted_text_is_stripped {W : Type}
    (env : forall R : Type, Request R -> W -> R * W)
    (Date_getTime : string -> Number) (st : AppState) (w : W) (u : User.t) :
  user st = Some u ->
  (forall category,
     addItemDisabled st category = false ->
     let draft := newItemContent st category in
     (exists r,
        mutation_calls (trace (run env (addItem category st) st w)) =
          [Ev (InsertItem category (trim draft) (User.id u)) r]) /\
     trim draft ≠ "" /\ stripped draft (trim draft)) /\
  (forall itemId,
     addCommentDisabled st itemId = false ->
     exists draft,
       newComments st !! itemId = Some draft /\
       (exists r,
          mutation_calls
            (trace (run env (addComment Date_getTime itemId st) st w)) =
            [Ev (InsertComment itemId (User.id u) (trim draft)) r]) /\
       trim draft ≠ "" /\ stripped draft (trim draft)).
Proof.
  intros Hu. split.
  - intros category Hen draft. subst draft.
    apply negb_false_iff in Hen. unfold addItemDisabled in *.
    split; [|split; [by apply truthy_nonempty|apply trim_stripped]].
    unfold addItem. rewrite Hu, Hen. handler_cases env; eauto.
  - intros itemId Hen. unfold addCommentDisabled in Hen.
    apply negb_false_iff in Hen.
    destruct (newComments st !! itemId) as [draft|] eqn:Hdraft; [|done].
    simpl in Hen. exists draft. split; [done|].
    split; [|split; [by apply truthy_nonempty|apply trim_stripped]].
    unfold addComment. rewrite Hdraft, Hu. simpl. rewrite Hen.
    handler_cases env; eauto.
Qed.

Lemma submitted_text_is_stripped_witness :
  user Sample.state0 = Some Sample.alice /\
  addItemDisabled Sample.state0 good = false /\
  addCommentDisabled Sample.state0 "A" = false /\
  trim (newItemContent Sample.state0 good) = "retro went well" /\
  (exists r,
     mutation_calls
       (trace (run server (addItem good Sample.state0) Sample.state0 Sample.world0))
     = [Ev (InsertItem good (trim (newItemContent Sample.state0 good)) "u-alice") r]) /\
  stripped (newItemContent Sample.state0 good)
    (trim (newItemContent Sample.state0 good)).
Proof.
  assert (Hu : user Sample.state0 = Some Sample.alice) by reflexivity.
  assert (Hitem : addItemDisabled Sample.state0 good = false) by reflexivity.
  assert (Hcomment : addCommentDisabled Sample.state0 "A" = false) by reflexivity.
  pose proof (submitted_text_is_stripped server Sample.getTime Sample.state0
                Sample.world0 Sample.alice Hu) as (Hadd & _).
  destruct (Hadd good Hitem) as (Hsent & _ & Hstripped).
  split; [exact Hu|]. split; [exact Hitem|]. split; [exact Hcomment|].
  split; [reflexivity|]. split; [exact Hsent|exact Hstripped].
Defined.

(** ** The stored list and the fetched rows *)

(** X9. A successful fetch neither drops nor duplicates a row: the stored
    list is a permutation of the rows received, and empty when the backend
    answers [null].  For rows whose dates parse it is moreover the stable
    sort of the answer: rows that tie (same number of votes, same time
    value) keep the order the backend gave them. *)
Theorem fetchItems_keeps_rows {W : Type}
    (env : forall R : Type, Request R -> W -> R * W)
    (Date_getTime : string -> Number) (st : AppState) (w w' : W)
    (data : option (list RetroItem.t)) :
  env _ SelectItems w = (Success data, w') ->
  let board := items (state (run env (fetchItems Date_getTime) st w)) in
  board ≡ₚ default [] data /\
  length board = length (default [] data) /\
  (data = None -> board = []) /\
  (valid_dates Date_getTime (default [] data) ->
   sorted_stably (compareItems Date_getTime)
     (fun x => createdAt Date_getTime x ≠ NaN) (default [] data) board).
Proof.
  intros Henv board. subst board.
  rewrite (run_fetchItems_success env Date_getTime st w w' data Henv). simpl.
  split; [apply sortedData_perm|]. split; [by rewrite sortedData_perm|].
  split; [by intros ->|].
  intros Hvalid. apply Array_sort_stable; [| |apply compareItems_flip|done].
  - intros x y _ _. apply compareItems_antisym.
  - apply in_order_trans.
Qed.

Lemma fetchItems_keeps_rows_witness :
  let data := Some (Db.select_items Sample.db0) in
  let board :=
    items (state (run server (fetchItems Sample.getTime) Sample.state0 Sample.world0)) in
  server _ SelectItems Sample.world0 = (Success data, Sample.world0) /\
  valid_dates Sample.getTime (default [] data) /\
  board ≡ₚ default [] data /\
  length board = 4%nat.
Proof.
  intros data board.
  assert (Henv : server _ SelectItems Sample.world0 = (Success data, Sample.world0))
    by reflexivity.
  assert (Hvalid : valid_dates Sample.getTime (default [] data)).
  { repeat (constructor; [vm_compute; discriminate|]). constructor. }
  pose proof (fetchItems_keeps_rows server Sample.getTime Sample.state0
                Sample.world0 Sample.world0 data Henv) as (Hperm & Hlen & _ & _).
  split; [exact Henv|]. split; [exact Hvalid|]. split; [exact Hperm|exact Hlen].
Defined.

(** ** The vote button *)

Lemma find_unique_id (items : list RetroItem.t) (item : RetroItem.t) :
  NoDup (RetroItem.id <$> items) -> item ∈ items ->
  find (fun i => bool_decide (RetroItem.id i = RetroItem.id item)) items = Some item.
Proof.
  intros Hids Hin.
  destruct (find _ items) as [item'|] eqn:Hfind.
  - apply find_some in Hfind as [Hin' Hid%bool_decide_eq_true].
    apply list_elem_of_In in Hin'. f_equal. by eapply NoDup_fmap_eq.
  - apply list_elem_of_In in Hin. apply (find_none _ _ Hfind item) in Hin.
    by apply bool_decide_eq_false in Hin.
Qed.

Lemma find_existsb {A : Type} (p : A -> bool) (l : list A) :
  existsb p l = bool_decide (is_Some (find p l)).
Proof.
  induction l as [|x l IH]; simpl; [done|].
  by destruct (p x).
Qed.

(** X10. The highlight of the vote button tells what a click will do.  On
    a board whose item identifiers are distinct, for an item of the board
    and a signed-in user: when [hasUserVoted] is true the click deletes a
    vote of that user embedded in that item; otherwise it inserts a vote
    for the item. *)
Theorem vote_button_matches_toggle {W : Type}
    (env : forall R : Type, Request R -> W -> R * W)
    (Date_getTime : string -> Number) (st : AppState) (w : W) (u : User.t)
    (item : RetroItem.t) :
  user st = Some u ->
  NoDup (RetroItem.id <$> items st) ->
  item ∈ items st ->
  let res := run env (toggleVote Date_getTime (RetroItem.id item) st) st w in
  if rendered (hasUserVoted (user st) item) then
    exists votes vote r,
      RetroItem.votes item = Some votes /\ vote ∈ votes /\
      Vote.user_id vote = User.id u /\
      mutation_calls (trace res) = [Ev (DeleteVote (Vote.id vote)) r]
  else
    exists r,
      mutation_calls (trace res)
      = [Ev (InsertVote (RetroItem.id item) (User.id u)) r].
Proof.
  intros Hu Hids Hin res. subst res.
  destruct (toggleVote_issues env Date_getTime (RetroItem.id item) st w u Hu)
    as (r & Hm).
  rewrite Hu. unfold hasUserVoted. unfold existingVote in Hm.
  rewrite (find_unique_id _ _ Hids Hin) in Hm.
  destruct (RetroItem.votes item) as [votes|]; simpl; [|eauto].
  rewrite find_existsb.
  destruct (find _ votes) as [vote|] eqn:Hvote.
  - rewrite bool_decide_eq_true_2 by eauto.
    apply find_some in Hvote as [Hv Hvu%bool_decide_eq_true].
    exists votes, vote, r. by rewrite list_elem_of_In.
  - rewrite bool_decide_eq_false_2 by (by intros [? ?]). eauto.
Qed.

Lemma vote_button_matches_toggle_witness :
  let item := Db.join Sample.db0 Sample.rowA in
  let res := run server (toggleVote Sample.getTime "A" Sample.state0)
               Sample.state0 Sample.world0 in
  user Sample.state0 = Some Sample.alice /\
  NoDup (RetroItem.id <$> items Sample.state0) /\
  item ∈ items Sample.state0 /\
  rendered (hasUserVoted (user Sample.state0) item) = false /\
  exists r, mutation_calls (trace res) = [Ev (InsertVote "A" "u-alice") r].
Proof.
  intros item res.
  assert (Hu : user Sample.state0 = Some Sample.alice) by reflexivity.
  assert (Hids : NoDup (RetroItem.id <$> items Sample.state0)).
  { apply (bool_decide_unpack _). vm_compute. exact I. }
  assert (Hin : item ∈ items Sample.state0).
  { apply list_elem_of_further, list_elem_of_here. }
  split; [exact Hu|]. split; [exact Hids|]. split; [exact Hin|].
  split; [reflexivity|].
  exact (vote_button_matches_toggle server Sample.getTime Sample.state0
           Sample.world0 Sample.alice item Hu Hids Hin).
Defined.

(** ** Voter names *)

Lemma displayName_nonempty (users : option Users) : displayName users ≠ "".
Proof.
  unfold displayName, or_else.
  destruct users as [[n]|]; simpl; [|done]. by destruct n.
Qed.

Lemma concat_nonempty (sep : string) (x : string) (l : list string) :
  x ≠ "" -> String.concat sep (x :: l) ≠ "".
Proof.
  intros Hx. simpl. destruct l; [done|]. by destruct x.
Qed.

(** X11. The line of voter names is empty exactly when the item has no
    vote (absent or empty [votes]); a voter without a nickname, or with an
    empty one, is listed as Anonymous, so that no name in the line is
    empty; a single voter is listed alone, without separator. *)
Theorem getVoterNames_spec (item : RetroItem.t) :
  (getVoterNames item = "" <-> voteCount item = 0%Z) /\
  (forall vote, RetroItem.votes item = Some [vote] ->
     getVoterNames item = displayName (Vote.users vote)) /\
  (forall users,
     displayName users ≠ "" /\
     (users = None \/ users = Some {| nickname := "" |} ->
      displayName users = "Anonymous") /\
     (forall n, users = Some {| nickname := n |} -> n ≠ "" -> displayName users = n)).
Proof.
  split; [|split].
  - unfold getVoterNames, voteCount.
    destruct (RetroItem.votes item) as [[|vote votes]|]; [done| |done].
    split; [|done]. intros Hnames. exfalso.
    pose proof (concat_nonempty ", " (displayName (Vote.users vote))
                  (map (fun v => displayName (Vote.users v)) votes)
                  (displayName_nonempty _)) as Hne.
    change (or_else (Some (String.concat ", "
              (displayName (Vote.users vote)
                 :: map (fun v => displayName (Vote.users v)) votes))) "" = "")
      in Hnames.
    unfold or_else in Hnames.
    by destruct (String.concat _ _).
  - intros vote Hv. unfold getVoterNames. rewrite Hv. simpl.
    unfold or_else. pose proof (displayName_nonempty (Vote.users vote)).
    by destruct (displayName (Vote.users vote)).
  - intros users. split; [apply displayName_nonempty|]. split.
    + by intros [-> | ->].
    + intros n -> Hn. unfold displayName, or_else. simpl. by destruct n.
Qed.

Lemma getVoterNames_spec_witness :
  let item := Db.join Sample.db0 Sample.rowA in
  getVoterNames item = "Bob, Anonymous" /\
  voteCount (Db.join Sample.db0 Sample.rowC) = 0%Z /\
  getVoterNames (Db.join Sample.db0 Sample.rowC) = "".
Proof.
  intros item. split; [reflexivity|].
  assert (Hnone : voteCount (Db.join Sample.db0 Sample.rowC) = 0%Z) by reflexivity.
  split; [exact Hnone|].
  exact (proj2 (proj1 (getVoterNames_spec (Db.join Sample.db0 Sample.rowC))) Hnone).
Defined.

(** ** Showing and hiding comments *)

(** X12. The "Show/Hide Comments" click flips the panel of its item and of
    no other item; a panel never opened before opens; two clicks bring
    every panel back to what it showed; the click touches nothing else of
    the component state. *)
Theorem toggleComments_flips (itemId : string) (st : AppState) :
  commentsShown (toggleComments itemId st) itemId = negb (commentsShown st itemId) /\
  (showComments st !! itemId = None ->
   commentsShown (toggleComments itemId st) itemId = true) /\
  (forall other, other ≠ itemId ->
     commentsShown (toggleComments itemId st) other = commentsShown st other) /\
  (forall k,
     commentsShown (toggleComments itemId (toggleComments itemId st)) k
     = commentsShown st k) /\
  items (toggleComments itemId st) = items st /\
  (user (toggleComments itemId st) = user st /\ newItemContent (toggleComments itemId st) = newItemContent st /\ newComments (toggleComments itemId st) = newComments st /\ loading (toggleComments itemId st) = loading st).
Proof.
  assert (Hflip : forall s : AppState,
    commentsShown (toggleComments itemId s) itemId = negb (commentsShown s itemId)).
  { intros s. unfold commentsShown at 1. simpl. by rewrite lookup_insert_eq. }
  assert (Hother : forall (s : AppState) other, other ≠ itemId ->
    commentsShown (toggleComments itemId s) other = commentsShown s other).
  { intros s other Hne. unfold commentsShown at 1. simpl.
    by rewrite lookup_insert_ne. }
  split; [apply Hflip|]. split.
  { intros Hnone. rewrite Hflip. unfold commentsShown. by rewrite Hnone. }
  split; [apply Hother|]. split; [|done].
  intros k. destruct (decide (k = itemId)) as [->|Hne].
  - by rewrite !Hflip, negb_involutive.
  - by rewrite !Hother.
Qed.

Lemma toggleComments_flips_witness :
  showComments Sample.state0 !! "A" = None /\
  commentsShown Sample.state0 "A" = false /\
  commentsShown (toggleComments "A" Sample.state0) "A" = true /\
  commentsShown (toggleComments "A" (toggleComments "A" Sample.state0)) "A" = false.
Proof.
  assert (Hnone : showComments Sample.state0 !! "A" = None) by reflexivity.
  pose proof (toggleComments_flips "A" Sample.state0) as (_ & Hopen & _ & Htwice & _).
  split; [exact Hnone|]. split; [reflexivity|].
  split; [exact (Hopen Hnone)|exact (Htwice "A")].
Defined.

(** ** Typing and submitting *)

(** X13. Typing in the box of a category changes the draft of that category
    only.  When a signed-in user then clicks Add on a non-blank text, the
    insert carries the trimmed text; if the insert succeeds the box is
    empty again and its button disabled, the other drafts being what they
    were; if it fails the text typed is still in the box. *)
Theorem typed_item_is_added {W : Type}
    (env : forall R : Type, Request R -> W -> R * W)
    (st : AppState) (w : W) (u : User.t)
    (category : Category) (value : string) :
  user st = Some u ->
  truthy (trim value) = true ->
  let typed := onChangeItem category value st in
  let res := run env (addItem category typed) typed w in
  (forall other, other ≠ category ->
     newItemContent typed other = newItemContent st other) /\
  addItemDisabled typed category = false /\
  (exists r,
     mutation_calls (trace res)
     = [Ev (InsertItem category (trim value) (User.id u)) r]) /\
  (forall m, m ∈ trace res -> is_mutation_call m = true -> succeeded m = true ->
     newItemContent (state res) category = "" /\
     addItemDisabled (state res) category = true /\
     (forall other, other ≠ category ->
        newItemContent (state res) other = newItemContent st other) /\
     exists item, items (state res) = item :: items st) /\
  (forall m e, m ∈ trace res -> is_mutation_call m = true -> call_error m = Some e ->
     newItemContent (state res) category = value /\
     items (state res) = items st).
Proof.
  intros Hu Hvalue typed res.
  assert (Hdraft : newItemContent typed category = value).
  { unfold typed, onChangeItem. simpl. apply fn_lookup_insert. }
  assert (Hothers : forall other, other ≠ category ->
            newItemContent typed other = newItemContent st other).
  { intros other Hne. unfold typed, onChangeItem. simpl.
    by apply fn_lookup_insert_ne. }
  split; [done|]. split.
  { unfold addItemDisabled. by rewrite Hdraft, Hvalue. }
  subst res. unfold addItem. rewrite Hdraft, Hvalue.
  replace (user typed) with (Some u) by done.
  handler_cases env; (split; [eauto|]);
    (split; [intros ? Hin Hmut Hok|intros ? ? Hin Hmut Herr]);
    repeat (apply elem_of_cons in Hin as [->|Hin]; [simpl in *; try done|]);
    try (by apply elem_of_nil in Hin).
  split; [apply fn_lookup_insert|]. split.
  { unfold addItemDisabled. simpl. by rewrite fn_lookup_insert. }
  split; [|eauto].
  intros other Hne. rewrite fn_lookup_insert_ne by done. by apply Hothers.
Qed.

Lemma typed_item_is_added_witness :
  let typed := onChangeItem better "  more demos  " Sample.state0 in
  let res := run server (addItem better typed) typed Sample.world0 in
  user Sample.state0 = Some Sample.alice /\
  truthy (trim "  more demos  ") = true /\
  (exists r,
     mutation_calls (trace res) = [Ev (InsertItem better "more demos" "u-alice") r]) /\
  newItemContent (state res) better = "" /\
  newItemContent (state res) good = "  retro went well ".
Proof.
  intros typed res.
  assert (Hu : user Sample.state0 = Some Sample.alice) by reflexivity.
  assert (Hv : truthy (trim "  more demos  ") = true) by reflexivity.
  pose proof (typed_item_is_added server Sample.state0 Sample.world0 Sample.alice
                better "  more demos  " Hu Hv) as (_ & _ & Hsent & _ & _).
  split; [exact Hu|]. split; [exact Hv|]. split; [exact Hsent|].
  split; reflexivity.
Defined.

(** Case analysis on the answers of the environment only. *)
Ltac env_cases env :=
  repeat (cbn -[errorMessage sortedData trim] in *;
          match goal with
          | |- context [env (Response ?X) ?q ?w] =>
              destruct (env (Response X) q w) as [[?|?] ?] eqn:?
          | |- context [env unit ?q ?w] => destruct (env unit q w) as [[] ?] eqn:?
          | |- context [env bool ?q ?w] => destruct (env bool q w) as [[] ?] eqn:?
          end);
  cbn -[errorMessage sortedData trim] in *.

(** X14. The same for a comment: typing changes the comment draft of that
    item only; the insert carries the trimmed text for that item and the
    signed-in user; after a successful insert the box is empty and its
    button disabled, whether or not the reload that follows succeeds; after
    a failed insert the text typed is still in the box. *)
Theorem typed_comment_is_added {W : Type}
    (env : forall R : Type, Request R -> W -> R * W)
    (Date_getTime : string -> Number) (st : AppState) (w : W) (u : User.t)
    (itemId : string) (value : string) :
  user st = Some u ->
  truthy (trim value) = true ->
  let typed := onChangeComment itemId value st in
  let res := run env (addComment Date_getTime itemId typed) typed w in
  (forall other, other ≠ itemId ->
     newComments typed !! other = newComments st !! other) /\
  addCommentDisabled typed itemId = false /\
  (exists r,
     mutation_calls (trace res)
     = [Ev (InsertComment itemId (User.id u) (trim value)) r]) /\
  (forall m, m ∈ trace res -> is_mutation_call m = true -> succeeded m = true ->
     newComments (state res) !! itemId = Some "" /\
     addCommentDisabled (state res) itemId = true /\
     (forall other, other ≠ itemId ->
        newComments (state res) !! other = newComments st !! other)) /\
  (forall m e, m ∈ trace res -> is_mutation_call m = true -> call_error m = Some e ->
     newComments (state res) !! itemId = Some value /\
     items (state res) = items st).
Proof.
  intros Hu Hvalue typed res.
  assert (Hdraft : newComments typed !! itemId = Some value).
  { unfold typed, onChangeComment. simpl. apply lookup_insert_eq. }
  assert (Hothers : forall other, other ≠ itemId ->
            newComments typed !! other = newComments st !! other).
  { intros other Hne. unfold typed, onChangeComment. simpl.
    by apply lookup_insert_ne. }
  split; [done|]. split.
  { unfold addCommentDisabled. rewrite Hdraft. simpl. by rewrite Hvalue. }
  subst res. unfold addComment. rewrite Hdraft. simpl. rewrite Hvalue.
  change (user typed) with (user st). rewrite Hu.
  env_cases env; (split; [eauto|]);
    (split; [intros ? Hin Hmut Hok|intros ? ? Hin Hmut Herr]);
    repeat (apply elem_of_cons in Hin as [->|Hin]; [simpl in *; try done|]);
    try (by apply elem_of_nil in Hin).
  all: try (split; [by apply lookup_insert_eq|done]).
  all: split; [by rewrite lookup_insert_eq|]; split;
    [unfold addCommentDisabled; simpl; by rewrite lookup_insert_eq|];
    intros other Hne; rewrite lookup_insert_ne by done; by apply Hothers.
Qed.

Lemma typed_comment_is_added_witness :
  let typed := onChangeComment "C" " nice " Sample.state0 in
  let res := run server (addComment Sample.getTime "C" typed) typed Sample.world0 in
  user Sample.state0 = Some Sample.alice /\
  truthy (trim " nice ") = true /\
  (exists r,
     mutation_calls (trace res) = [Ev (InsertComment "C" "u-alice" "nice") r]) /\
  newComments (state res) !! "C" = Some "" /\
  newComments (state res) !! "A" = Some "agreed".
Proof.
  intros typed res.
  assert (Hu : user Sample.state0 = Some Sample.alice) by reflexivity.
  assert (Hv : truthy (trim " nice ") = true) by reflexivity.
  pose proof (typed_comment_is_added server Sample.getTime Sample.state0
                Sample.world0 Sample.alice "C" " nice " Hu Hv)
    as (_ & _ & Hsent & _ & _).
  split; [exact Hu|]. split; [exact Hv|]. split; [exact Hsent|].
  split; reflexivity.
Defined.

(** ** Ownership *)

(** X15. The delete controls are for owners: signed out, neither control is
    rendered; signed in, the control of an item (of a comment) is rendered
    exactly when the user's identifier is that of its creator (author), so
    two users who both see it have the same identifier.  In particular the
    item that [addItem] puts on the board, when the backend returns it as
    created by the caller, carries the delete control for that user. *)
Theorem delete_controls_are_for_owners {W : Type}
    (env : forall R : Type, Request R -> W -> R * W)
    (st : AppState) (w : W) (item : RetroItem.t) (comment : Comment.t) :
  rendered (isItemOwner None item) = false /\
  rendered (isCommentOwner None comment) = false /\
  (forall u, rendered (isItemOwner (Some u) item) = true <->
             RetroItem.created_by item = User.id u) /\
  (forall u, rendered (isCommentOwner (Some u) comment) = true <->
             Comment.user_id comment = User.id u) /\
  (forall u1 u2,
     rendered (isItemOwner (Some u1) item) = true ->
     rendered (isItemOwner (Some u2) item) = true -> User.id u1 = User.id u2) /\
  (forall category u m data,
     user st = Some u ->
     let res := run env (addItem category st) st w in
     m ∈ trace res -> inserted_row m = Some data ->
     RetroItem.created_by data = User.id u ->
     head (items (state res)) = Some (RetroItem.with_empty_votes_and_comments data) /\
     rendered (isItemOwner (user (state res))
                 (RetroItem.with_empty_votes_and_comments data)) = true).
Proof.
  split; [done|]. split; [done|].
  split; [intros u; simpl; apply bool_decide_eq_true|].
  split; [intros u; simpl; apply bool_decide_eq_true|].
  split.
  { intros u1 u2 H1%bool_decide_eq_true H2%bool_decide_eq_true. congruence. }
  intros category u m data Hu. unfold addItem. rewrite Hu.
  handler_cases env; intros Hin Hrow Hby;
    repeat (apply elem_of_cons in Hin as [->|Hin]; [simpl in Hrow; try done|]);
    try (by apply elem_of_nil in Hin).
  simplify_eq. split; [done|]. rewrite Hu. simpl. by apply bool_decide_eq_true.
Qed.

Lemma delete_controls_are_for_owners_witness :
  let item := Db.join Sample.db0 Sample.rowA in
  RetroItem.created_by item = User.id Sample.alice /\
  rendered (isItemOwner (Some Sample.alice) item) = true /\
  rendered (isItemOwner (Some Sample.bob) item) = false /\
  rendered (isItemOwner None item) = false.
Proof.
  intros item.
  assert (Hby : RetroItem.created_by item = User.id Sample.alice) by reflexivity.
  pose proof (delete_controls_are_for_owners server Sample.state0 Sample.world0 item
                {| Comment.id := "c1"; Comment.retro_item_id := "A";
                   Comment.user_id := "u-bob"; Comment.content := "yes";
                   Comment.created_at := "2024-01-15T12:00:00Z";
                   Comment.users := None |})
    as (Hout & _ & Hown & _).
  split; [exact Hby|]. split; [exact (proj2 (Hown Sample.alice) Hby)|].
  split; [reflexivity|exact Hout].
Defined.

(** ** Start-up configuration *)

(** X16. The client of [lib/insforge.ts] and the provider of the entry file
    read the same base address: the value of [VITE_INSFORGE_BASE_URL] when
    it is set and not empty, the built-in address otherwise; it is never
    empty.  The anonymous key is the variable's value, or empty. *)
Theorem client_and_provider_agree (env : ImportMetaEnv) :
  baseUrl (insforge_config env) = provider_baseUrl env /\
  baseUrl (insforge_config env) ≠ "" /\
  (forall url, VITE_INSFORGE_BASE_URL env = Some url -> url ≠ "" ->
     baseUrl (insforge_config env) = url) /\
  (VITE_INSFORGE_BASE_URL env = None \/ VITE_INSFORGE_BASE_URL env = Some "" ->
   baseUrl (insforge_config env) = "https://kh2b392k.us-east.insforge.app") /\
  anonKey (insforge_config env) = default "" (VITE_INSFORGE_ANON_KEY env).
Proof.
  unfold insforge_config, provider_baseUrl, or_else. simpl.
  split; [done|]. split; [|split; [|split]].
  - by destruct (VITE_INSFORGE_BASE_URL env) as [[|? ?]|].
  - intros url -> Hurl. by destruct url.
  - by intros [-> | ->].
  - by destruct (VITE_INSFORGE_ANON_KEY env) as [[|? ?]|].
Qed.

Lemma client_and_provider_agree_witness :
  let env := {| VITE_INSFORGE_BASE_URL := Some ""; VITE_INSFORGE_ANON_KEY := None |} in
  VITE_INSFORGE_BASE_URL env = Some "" /\
  baseUrl (insforge_config env) = "https://kh2b392k.us-east.insforge.app" /\
  provider_baseUrl env = "https://kh2b392k.us-east.insforge.app".
Proof.
  intros env.
  assert (Hset : VITE_INSFORGE_BASE_URL env = Some "") by reflexivity.
  pose proof (client_and_provider_agree env) as (Hsame & _ & _ & Hdefault & _).
  split; [exact Hset|]. split; [exact (Hdefault (or_intror Hset))|].
  rewrite <- Hsame. exact (Hdefault (or_intror Hset)).
Defined.

(** ** A vote on the reloaded board *)

(** X17. Against the backend model, when a signed-in user for whom the
    board shows no vote on an item clicks the vote button and both calls
    succeed, the reloaded board shows that item with one vote more than the
    backend held for it and with the button highlighted for the user. *)
Theorem vote_shows_on_reloaded_board (Date_getTime : string -> Number)
    (itemId : string) (st : AppState) (w : World) (u : User.t) :
  user st = Some u ->
  existingVote (items st) itemId u = None ->
  faults w = [] ->
  let res := run server (toggleVote Date_getTime itemId st) st w in
  forall item,
    item ∈ items (state res) -> RetroItem.id item = itemId ->
    hasUserVoted (user (state res)) item = Some true /\
    voteCount item = (Z.of_nat (length (Db.votes_of (db w) itemId)) + 1)%Z.
Proof.
  intros Hu Hview Hf res item. subst res.
  rewrite (run_toggleVote_insert Date_getTime itemId st w u Hu Hf Hview).
  cbn -[sortedData Db.select_items]. rewrite Hu.
  set (v := new_vote_row w itemId (User.id u)).
  rewrite sortedData_perm. simpl.
  intros (row & -> & Hrow)%list_elem_of_fmap Hid. simpl in Hid.
  unfold hasUserVoted, voteCount. simpl. rewrite Hid.
  assert (Hvotes : Db.votes_of (Db.insert_vote v (db w)) itemId
                   = Db.votes_of (db w) itemId ++ [v])
    by apply (votes_of_insert_vote v).
  rewrite !Hvotes. split.
  - f_equal. rewrite fmap_app, existsb_app. simpl.
    by rewrite bool_decide_eq_true_2, orb_true_r.
  - rewrite length_fmap, length_app. simpl. lia.
Qed.

Lemma vote_shows_on_reloaded_board_witness :
  let res := run server (toggleVote Sample.getTime "A" Sample.state0)
               Sample.state0 Sample.world0 in
  let item := Db.join (db (world res)) Sample.rowA in
  user Sample.state0 = Some Sample.alice /\
  existingVote (items Sample.state0) "A" Sample.alice = None /\
  faults Sample.world0 = [] /\
  item ∈ items (state res) /\
  hasUserVoted (user (state res)) item = Some true /\
  voteCount item = 3%Z.
Proof.
  intros res item.
  assert (Hu : user Sample.state0 = Some Sample.alice) by reflexivity.
  assert (Hview : existingVote (items Sample.state0) "A" Sample.alice = None)
    by reflexivity.
  assert (Hf : faults Sample.world0 = []) by reflexivity.
  assert (Hin : item ∈ items (state res)) by apply list_elem_of_here.
  destruct (vote_shows_on_reloaded_board Sample.getTime "A" Sample.state0
              Sample.world0 Sample.alice Hu Hview Hf item Hin eq_refl)
    as (Hvoted & Hcount).
  split; [exact Hu|]. split; [exact Hview|]. split; [exact Hf|].
  split; [exact Hin|]. split; [exact Hvoted|exact Hcount].
Defined.

(** ** The board after [addItem] *)

(** X18. After a successful [addItem] the new item is at the top of the
    column of its category, above the items that were there, and the other
    columns are unchanged.  The list is not sorted again: the new item has
    no vote, so it stands before every item that has votes, against the
    ranking, until the next reload. *)
Theorem added_item_tops_its_column {W : Type}
    (env : forall R : Type, Request R -> W -> R * W)
    (Date_getTime : string -> Number) (category : Category) (st : AppState)
    (w : W) (m : Event) (data : RetroItem.t) :
  let res := run env (addItem category st) st w in
  m ∈ trace res -> inserted_row m = Some data ->
  let added := RetroItem.with_empty_votes_and_comments data in
  (forall c,
     getItemsByCategory (items (state res)) c =
       if decide (RetroItem.category data = c)
       then added :: getItemsByCategory (items st) c
       else getItemsByCategory (items st) c) /\
  voteCount added = 0%Z /\
  (forall b, b ∈ items st -> (0 < voteCount b)%Z ->
     precedes added b (items (state res)) /\
     ~ ranked_before Date_getTime added b).
Proof.
  intros res Hin Hrow added. subst res added. revert Hin Hrow.
  unfold addItem. handler_cases env; intros Hin Hrow;
    repeat (apply elem_of_cons in Hin as [->|Hin]; [simpl in Hrow; try done|]);
    try (by apply elem_of_nil in Hin).
  simplify_eq. split; [|split; [done|]].
  - intros c. unfold getItemsByCategory.
    by destruct (decide (RetroItem.category data = c)).
  - intros b Hb Hvotes. split.
    + apply list_elem_of_split in Hb as (l1 & l2 & ->). by exists [], l1, l2.
    + unfold ranked_before, voteCount at 2 3. simpl. lia.
Qed.

Lemma added_item_tops_its_column_witness :
  let res := run server (addItem good Sample.state0) Sample.state0 Sample.world0 in
  let data := Db.inserted_item Sample.db0
                (new_item_row Sample.world0 good "retro went well" "u-alice") in
  let m := Ev (InsertItem good "retro went well" "u-alice") (Success data) in
  let b := Db.join Sample.db0 Sample.rowB in
  m ∈ trace res /\
  inserted_row m = Some data /\
  b ∈ items Sample.state0 /\
  (0 < voteCount b)%Z /\
  RetroItem.id <$> getItemsByCategory (items (state res)) good
    = ["gen-0"; "B"; "A"; "C"] /\
  precedes (RetroItem.with_empty_votes_and_comments data) b (items (state res)) /\
  ~ ranked_before Sample.getTime (RetroItem.with_empty_votes_and_comments data) b.
Proof.
  intros res data m b.
  assert (Hin : m ∈ trace res) by apply list_elem_of_here.
  assert (Hrow : inserted_row m = Some data) by reflexivity.
  assert (Hb : b ∈ items Sample.state0) by apply list_elem_of_here.
  assert (Hvotes : (0 < voteCount b)%Z) by reflexivity.
  pose proof (added_item_tops_its_column server Sample.getTime good Sample.state0
                Sample.world0 m data Hin Hrow) as (_ & _ & Hrank).
  split; [exact Hin|]. split; [exact Hrow|]. split; [exact Hb|].
  split; [exact Hvotes|]. split; [reflexivity|]. exact (Hrank b Hb Hvotes).
Defined.
